(** * The lexical scanner of [compiler.lexer.lexer]

    A shallow embedding of the Python module [src/compiler/lexer/lexer.py]
    and the properties of its [Lexer.next_token].

    Conventions of the embedding.
    - A Python [str] is a list of Unicode code points ([char := N]).
    - [str.isalpha], [str.isdigit] and [str.lower] belong to the Python
      runtime, not to the module: the scanner is parameterised by a
      [UnicodeData] record that holds them.  [python_ascii] is their
      restriction to the ASCII block, used to run the scanner on ASCII
      sources.
    - The mutable fields of a [Lexer] object are threaded explicitly; a
      method [m] becomes a function from the object before the call to the
      returned value and the object after it.
    - Indexing a string out of range raises [IndexError]; a [while] loop is
      run with fuel and yields [Diverge] when the fuel runs out.  That
      neither ever happens is part of what is proved.

    The file has the embedding first, then the notions the statements use,
    the lemmas about loops, skipper and recognizers, and at the end the
    properties of the scanner, numbered C1 to C10. *)

From Stdlib Require Import Ascii String.
From Stdlib Require Import List Bool Arith NArith ZArith Lia.
Import ListNotations.

Set Implicit Arguments.

(** ** Characters and strings *)

Definition char := N.
Definition str := list char.

Definition chr (a : ascii) : char := N_of_ascii a.

(** The code points of a literal written in the ASCII block. *)
Definition lit (s : string) : str := map chr (list_ascii_of_string s).

Definition char_eqb (a b : char) : bool := N.eqb a b.

Fixpoint str_eqb (a b : str) : bool :=
  match a, b with
  | [], [] => true
  | x :: a', y :: b' => char_eqb x y && str_eqb a' b'
  | _, _ => false
  end.

(** [c in (a, b, ...)] on characters. *)
Definition char_in (c : char) (l : list char) : bool := existsb (char_eqb c) l.

Fixpoint is_prefix (a b : str) : bool :=
  match a, b with
  | [], _ => true
  | x :: a', y :: b' => char_eqb x y && is_prefix a' b'
  | _ :: _, [] => false
  end.

(** [a in b] on strings: [a] occurs in [b] as a substring. *)
Fixpoint str_in (a b : str) : bool :=
  is_prefix a b ||
  match b with
  | [] => false
  | _ :: b' => str_in a b'
  end.

(** [s[i:j]] for [0 <= i] and [0 <= j]. *)
Definition slice (s : str) (i j : nat) : str := firstn (j - i) (skipn i s).

(** [s[i:]] for any integer [i]: a negative [i] counts from the end. *)
Definition slice_from (s : str) (i : Z) : str :=
  if (i <? 0)%Z
  then skipn (Z.to_nat (Z.max 0 (Z.of_nat (length s) + i))) s
  else skipn (Z.to_nat i) s.

(** The part of the Python runtime the scanner calls. *)
Record UnicodeData : Type := {
  isalpha : char -> bool;
  isdigit : char -> bool;
  lower : char -> str
}.

Definition in_range (lo hi : ascii) (c : char) : bool :=
  (N.leb (chr lo) c && N.leb c (chr hi))%bool.

(** The three methods on the ASCII block (code points below 128); above
    it nothing is alphabetic or a digit and [lower] is the identity. *)
Definition python_ascii : UnicodeData := {|
  isalpha := fun c => in_range "A" "Z" c || in_range "a" "z" c;
  isdigit := fun c => in_range "0" "9" c;
  lower := fun c => if in_range "A" "Z" c then [(c + 32)%N] else [c]
|}.

(** [U] behaves on the ASCII block as Python does. *)
Definition ascii_compatible (U : UnicodeData) : Prop :=
  forall c, (c < 128)%N ->
    isalpha U c = isalpha python_ascii c /\
    isdigit U c = isdigit python_ascii c /\
    lower U c = lower python_ascii c.

(** ** Tokens *)

Record Span : Type := {
  start_line : Z;
  start_col : Z;
  end_line : Z;
  end_col : Z
}.

Inductive OperatorType : Type :=
| MINUS | ASSIGN_MINUS
| PLUS | ASSIGN_PLUS
| MUL | ASSIGN_MUL
| DIV | ASSIGN_DIV
| MOD | ASSIGN_MOD
| ASSIGN.

Definition operator_value (o : OperatorType) : str :=
  match o with
  | MINUS => lit "-" | ASSIGN_MINUS => lit "-="
  | PLUS => lit "+" | ASSIGN_PLUS => lit "+="
  | MUL => lit "*" | ASSIGN_MUL => lit "*="
  | DIV => lit "/" | ASSIGN_DIV => lit "/="
  | MOD => lit "%" | ASSIGN_MOD => lit "%="
  | ASSIGN => lit "="
  end.

Inductive SeparatorType : Type :=
| PAREN_OPEN | PAREN_CLOSE | BRACE_OPEN | BRACE_CLOSE | SEMICOLON.

Definition separator_value (s : SeparatorType) : str :=
  match s with
  | PAREN_OPEN => lit "("
  | PAREN_CLOSE => lit ")"
  | BRACE_OPEN => lit "{"
  | BRACE_CLOSE => lit "}"
  | SEMICOLON => lit ";"
  end.

Inductive KeywordType : Type := IF | ELSE | WHILE.

(** [KeywordType.keyword]. *)
Definition keyword (k : KeywordType) : str :=
  match k with
  | IF => lit "if"
  | ELSE => lit "else"
  | WHILE => lit "while"
  end.

(** The members of the enumeration, in definition order. *)
Definition KeywordType_members : list KeywordType := [IF; ELSE; WHILE].

Inductive Token : Type :=
| ErrorToken (message : str) (span : Span)
| Operator (op_type : OperatorType) (span : Span)
| Separator (sep_type : SeparatorType) (span : Span)
| Identifier (name : str) (span : Span)
| Keyword (keyword_type : KeywordType) (span : Span)
| NumberLiteral (value : str) (base : Z) (span : Span).

Definition token_span (t : Token) : Span :=
  match t with
  | ErrorToken _ s | Operator _ s | Separator _ s
  | Identifier _ s | Keyword _ s | NumberLiteral _ _ s => s
  end.

(** ** Outcomes of a computation *)

Inductive result (A : Type) : Type :=
| Ok (a : A)
| IndexError
| Diverge.

Arguments IndexError {A}.
Arguments Diverge {A}.

Definition bind {A B : Type} (m : result A) (k : A -> result B) : result B :=
  match m with
  | Ok a => k a
  | IndexError => IndexError
  | Diverge => Diverge
  end.

Notation "x <- m ;; k" := (bind m (fun x => k))
  (at level 61, m at next level, right associativity).

(** What one pass through the body of a [while] loop does next. *)
Inductive ctl (S R : Type) : Type :=
| Continue (s : S)      (* go back to the test *)
| Break (s : S)         (* the test failed: fall out of the loop *)
| Return (r : R).       (* [return r] inside the loop *)

Arguments Continue {S R} s.
Arguments Break {S R} s.
Arguments Return {S R} r.

(** [while_loop body fuel s]: at most [fuel] passes of [body] from [s].
    [inl s'] is the state on leaving the loop, [inr r] a [return]. *)
Fixpoint while_loop {S R : Type} (body : S -> result (ctl S R))
    (fuel : nat) (s : S) : result (S + R) :=
  match fuel with
  | O => Diverge
  | Datatypes.S n =>
      c <- body s ;;
      match c with
      | Continue s' => while_loop body n s'
      | Break s' => Ok (inl s')
      | Return r => Ok (inr r)
      end
  end.

(** ** The scanner *)

Record Lexer : Type := {
  source : str;
  pos : nat;
  line_start : nat;
  line : nat
}.

(** [Lexer.__init__] and [Lexer.for_string]. *)
Definition for_string (src : str) : Lexer :=
  {| source := src; pos := 0; line_start := 0; line := 0 |}.

(** [self.pos += n]. *)
Definition advance (l : Lexer) (n : nat) : Lexer :=
  {| source := source l; pos := pos l + n;
     line_start := line_start l; line := line l |}.

Definition peek (l : Lexer) (offset : nat) : result char :=
  match nth_error (source l) (pos l + offset) with
  | Some c => Ok c
  | None => IndexError
  end.

Definition has_more (l : Lexer) (offset : nat) : bool :=
  pos l + offset <? length (source l).

Definition build_span (l : Lexer) (proceed : nat) : Span * Lexer :=
  let start := pos l in
  let col := (Z.of_nat start - Z.of_nat (line_start l))%Z in
  ({| start_line := Z.of_nat (line l);
      start_col := col;
      end_line := Z.of_nat (line l);
      end_col := (col + Z.of_nat proceed)%Z |},
   advance l proceed).

Inductive CommentType : Type := SINGLE_LINE | MULTI_LINE.

Definition comment_type_eqb (a : option CommentType) (b : option CommentType) : bool :=
  match a, b with
  | None, None => true
  | Some SINGLE_LINE, Some SINGLE_LINE => true
  | Some MULTI_LINE, Some MULTI_LINE => true
  | _, _ => false
  end.

(** The local variables of [skip_whitespace]. *)
Record SkipLocals : Type := {
  current_comment_type : option CommentType;
  multi_line_comment_depth : Z;
  comment_start : Z
}.

Definition skip_init : SkipLocals :=
  {| current_comment_type := None;
     multi_line_comment_depth := 0;
     comment_start := (-1)%Z |}.

Definition set_type (v : SkipLocals) (t : option CommentType) : SkipLocals :=
  {| current_comment_type := t;
     multi_line_comment_depth := multi_line_comment_depth v;
     comment_start := comment_start v |}.

(** The number of passes a loop that moves the cursor forward can make. *)
Definition loop_fuel (l : Lexer) : nat := S (length (source l) - pos l).


(** One pass through [while self.has_more(0): ...] of [skip_whitespace]. *)
Definition skip_body (st : Lexer * SkipLocals)
  : result (ctl (Lexer * SkipLocals) (option Token * Lexer)) :=
  let '(l, v) := st in
  if negb (has_more l 0) then Ok (Break st) else
  ch <- peek l 0 ;;
  if char_in ch [chr " "; chr "009"] then
    Ok (Continue (advance l 1, v))
  else if char_in ch [chr "010"; chr "013"] then
    let l' := {| source := source l; pos := pos l + 1;
                 line_start := pos l + 1; line := line l + 1 |} in
    if comment_type_eqb (current_comment_type v) (Some SINGLE_LINE)
    then Ok (Continue (l', set_type v None))
    else Ok (Continue (l', v))
  else if char_eqb ch (chr "/") then
    if comment_type_eqb (current_comment_type v) (Some SINGLE_LINE) then
      Ok (Continue (advance l 1, v))
    else if has_more l 1 then
      next_ch <- peek l 1 ;;
      if char_eqb next_ch (chr "/")
         && comment_type_eqb (current_comment_type v) None then
        Ok (Continue (advance l 2,
                      {| current_comment_type := Some SINGLE_LINE;
                         multi_line_comment_depth := multi_line_comment_depth v;
                         comment_start := Z.of_nat (pos l) |}))
      else if char_eqb next_ch (chr "*") then
        Ok (Continue (advance l 2,
                      {| current_comment_type := Some MULTI_LINE;
                         multi_line_comment_depth :=
                           (multi_line_comment_depth v + 1)%Z;
                         comment_start := Z.of_nat (pos l) |}))
      else if comment_type_eqb (current_comment_type v) (Some MULTI_LINE) then
        Ok (Continue (advance l 1, v))
      else Ok (Return (None, l))
    else if (multi_line_comment_depth v >? 0)%Z then
      Ok (Continue (advance l 1, v))
    else Ok (Return (None, l))
  else
    if comment_type_eqb (current_comment_type v) (Some MULTI_LINE) then
      closes <- (if char_eqb ch (chr "*") then
                   if has_more l 1 then
                     c <- peek l 1 ;; Ok (char_eqb c (chr "/"))
                   else Ok false
                 else Ok false) ;;
      if (closes : bool) then
        let depth := (multi_line_comment_depth v - 1)%Z in
        Ok (Continue (advance l 2,
                      {| current_comment_type :=
                           if (depth =? 0)%Z then None else Some MULTI_LINE;
                         multi_line_comment_depth := depth;
                         comment_start := comment_start v |}))
      else Ok (Continue (advance l 1, v))
    else if comment_type_eqb (current_comment_type v) (Some SINGLE_LINE) then
      Ok (Continue (advance l 1, v))
    else Ok (Return (None, l)).

(** The statements of [skip_whitespace] after its loop. *)
Definition skip_finish (st : Lexer * SkipLocals) : option Token * Lexer :=
  let '(l, v) := st in
  if negb (has_more l 0)
     && comment_type_eqb (current_comment_type v) (Some MULTI_LINE)
  then
    let '(sp, l') := build_span l 0 in
    (Some (ErrorToken (slice_from (source l) (comment_start v)) sp), l')
  else (None, l).

Definition skip_whitespace (l : Lexer) : result (option Token * Lexer) :=
  r <- while_loop skip_body (loop_fuel l) (l, skip_init) ;;
  match r with
  | inl st => Ok (skip_finish st)
  | inr out => Ok out
  end.

Definition separator (l : Lexer) (sep_type : SeparatorType) : Token * Lexer :=
  let '(sp, l') := build_span l 1 in (Separator sep_type sp, l').

Definition single_or_assign (l : Lexer) (single assign : OperatorType)
  : result (Token * Lexer) :=
  is_assign <- (if has_more l 1
                then c <- peek l 1 ;; Ok (char_eqb c (chr "="))
                else Ok false) ;;
  if (is_assign : bool) then
    let '(sp, l') := build_span l 2 in Ok (Operator assign sp, l')
  else
    let '(sp, l') := build_span l 1 in Ok (Operator single sp, l').

Section Recognizers.

Variable U : UnicodeData.

Definition is_identifier_char (c : char) : bool :=
  char_eqb c (chr "_") || isalpha U c || isdigit U c.

Definition is_numeric (c : char) : bool := isdigit U c.

Definition is_hex (c : char) : bool :=
  isdigit U c || str_in (lower U c) (lit "abcdef").

(** One pass through [while self.has_more(0) and p(self.peek()):
    self.pos += 1], the loop of the three recognizers. *)
Definition scan_body (p : char -> bool) (l : Lexer)
  : result (ctl Lexer unit) :=
  if has_more l 0 then
    c <- peek l 0 ;;
    if p c then Ok (Continue (advance l 1)) else Ok (Break l)
  else Ok (Break l).

Definition scan_while (p : char -> bool) (l : Lexer) : result Lexer :=
  r <- while_loop (scan_body p) (loop_fuel l) l ;;
  match r with
  | inl l' => Ok l'
  | inr _ => Ok l
  end.

(** [for value in KeywordType: if value.keyword() == id_str: return ...]:
    the first member whose spelling is [id_str]. *)
Fixpoint find_keyword (members : list KeywordType) (id_str : str)
  : option KeywordType :=
  match members with
  | [] => None
  | value :: rest =>
      if str_eqb (keyword value) id_str then Some value
      else find_keyword rest id_str
  end.

Definition lex_identifier_or_keyword (l : Lexer) : result (Token * Lexer) :=
  let start_pos := pos l in
  l1 <- scan_while is_identifier_char l ;;
  let id_str := slice (source l1) start_pos (pos l1) in
  match find_keyword KeywordType_members id_str with
  | Some value =>
      let '(sp, l2) := build_span l1 (pos l1 - start_pos) in
      Ok (Keyword value sp, l2)
  | None =>
      let '(sp, l2) := build_span l1 (pos l1 - start_pos) in
      Ok (Identifier id_str sp, l2)
  end.

Definition is_hex_prefix (l : Lexer) : result bool :=
  c <- peek l 0 ;;
  if char_eqb c (chr "0") then
    if has_more l 1 then
      c1 <- peek l 1 ;; Ok (char_in c1 [chr "x"; chr "X"])
    else Ok false
  else Ok false.

Definition lex_number (l : Lexer) : result (Token * Lexer) :=
  let start_pos := pos l in
  hex <- is_hex_prefix l ;;
  if (hex : bool) then
    l1 <- scan_while is_hex (advance l 2) ;;
    if (pos l1 - start_pos =? 2)%nat then
      let '(sp, l2) := build_span l1 2 in
      Ok (ErrorToken (slice (source l1) start_pos (pos l1)) sp, l2)
    else
      let '(sp, l2) := build_span l1 (pos l1 - start_pos) in
      Ok (NumberLiteral (slice (source l1) start_pos (pos l1)) 16 sp, l2)
  else
    l1 <- scan_while is_numeric l ;;
    first <- match nth_error (source l1) start_pos with
             | Some c => Ok c
             | None => IndexError
             end ;;
    if char_eqb first (chr "0") && (1 <? pos l1 - start_pos)%nat then
      let '(sp, l2) := build_span l1 (pos l1 - start_pos) in
      Ok (ErrorToken (slice (source l1) start_pos (pos l1)) sp, l2)
    else
      let '(sp, l2) := build_span l1 (pos l1 - start_pos) in
      Ok (NumberLiteral (slice (source l1) start_pos (pos l1)) 10 sp, l2).

Definition some_token (r : result (Token * Lexer))
  : result (option Token * Lexer) :=
  x <- r ;; Ok (Some (fst x), snd x).

Definition next_token (l : Lexer) : result (option Token * Lexer) :=
  skipped <- skip_whitespace l ;;
  let '(error, l) := skipped in
  match error with
  | Some e => Ok (Some e, l)
  | None =>
    if (length (source l) <=? pos l)%nat then Ok (None, l) else
    current_char <- peek l 0 ;;
    if char_eqb current_char (chr "(") then
      some_token (Ok (separator l PAREN_OPEN))
    else if char_eqb current_char (chr ")") then
      some_token (Ok (separator l PAREN_CLOSE))
    else if char_eqb current_char (chr "{") then
      some_token (Ok (separator l BRACE_OPEN))
    else if char_eqb current_char (chr "}") then
      some_token (Ok (separator l BRACE_CLOSE))
    else if char_eqb current_char (chr ";") then
      some_token (Ok (separator l SEMICOLON))
    else if char_eqb current_char (chr "-") then
      some_token (single_or_assign l MINUS ASSIGN_MINUS)
    else if char_eqb current_char (chr "+") then
      some_token (single_or_assign l PLUS ASSIGN_PLUS)
    else if char_eqb current_char (chr "*") then
      some_token (single_or_assign l MUL ASSIGN_MUL)
    else if char_eqb current_char (chr "/") then
      some_token (single_or_assign l DIV ASSIGN_DIV)
    else if char_eqb current_char (chr "%") then
      some_token (single_or_assign l MOD ASSIGN_MOD)
    else if char_eqb current_char (chr "=") then
      let '(sp, l') := build_span l 1 in Ok (Some (Operator ASSIGN sp), l')
    else
      if is_identifier_char current_char then
        if is_numeric current_char then some_token (lex_number l)
        else some_token (lex_identifier_or_keyword l)
      else
        let '(sp, l') := build_span l 1 in
        Ok (Some (ErrorToken [current_char] sp), l')
  end.

(** The tokens of at most [n] calls of [next_token], up to the first
    [None]; the flag tells whether [None] was reached. *)
Fixpoint tokens (n : nat) (l : Lexer) : result (list Token * bool) :=
  match n with
  | O => Ok ([], false)
  | S n' =>
      r <- next_token l ;;
      match r with
      | (None, _) => Ok ([], true)
      | (Some t, l') =>
          rest <- tokens n' l' ;;
          Ok (t :: fst rest, snd rest)
      end
  end.

End Recognizers.



(** ** Reading a span back as offsets *)

Definition is_newline (c : char) : bool :=
  char_in c [chr "010"; chr "013"].

(** The offset at which line [n] starts: just behind the [n]-th line
    terminator, each of ["\n"] and ["\r"] ending a line on its own as in
    [skip_whitespace]. *)
Fixpoint line_offset (s : str) (n : nat) : nat :=
  match n with
  | O => 0
  | S n' =>
      match s with
      | [] => 0
      | c :: s' =>
          if is_newline c then S (line_offset s' n')
          else S (line_offset s' n)
      end
  end.

Definition start_offset (src : str) (sp : Span) : Z :=
  (Z.of_nat (line_offset src (Z.to_nat (start_line sp))) + start_col sp)%Z.

Definition end_offset (src : str) (sp : Span) : Z :=
  (Z.of_nat (line_offset src (Z.to_nat (end_line sp))) + end_col sp)%Z.

(** The substring of the source at [[start_offset, end_offset)]. *)
Definition span_text (src : str) (sp : Span) : str :=
  slice src (Z.to_nat (start_offset src sp)) (Z.to_nat (end_offset src sp)).

(** The literal text a token stands for. *)
Definition token_text (t : Token) : str :=
  match t with
  | ErrorToken message _ => message
  | Operator op_type _ => operator_value op_type
  | Separator sep_type _ => separator_value sep_type
  | Identifier name _ => name
  | Keyword keyword_type _ => keyword keyword_type
  | NumberLiteral value _ _ => value
  end.

(** The characters the skipper moved over in each call followed by the
    source slice of the token the call returned, over at most [n] calls
    of [next_token]. *)
Fixpoint coverage (U : UnicodeData) (n : nat) (l : Lexer) : result str :=
  match n with
  | O => Ok []
  | S n' =>
      sk <- skip_whitespace l ;;
      let skipped := slice (source l) (pos l) (pos (snd sk)) in
      r <- next_token U l ;;
      match r with
      | (None, _) => Ok skipped
      | (Some t, l') =>
          rest <- coverage U n' l' ;;
          Ok (skipped ++ span_text (source l) (token_span t) ++ rest)
      end
  end.

(** The longest prefix of [s] whose characters satisfy [p]. *)
Fixpoint take_while (p : char -> bool) (s : str) : str :=
  match s with
  | [] => []
  | c :: s' => if p c then c :: take_while p s' else []
  end.

(** The states the loop of [skip_whitespace] goes through when entered
    with the scanner in [l0]. *)
Inductive skip_reach (l0 : Lexer) : Lexer * SkipLocals -> Prop :=
| reach_start : skip_reach l0 (l0, skip_init)
| reach_pass st st' :
    skip_reach l0 st -> skip_body st = Ok (Continue st') -> skip_reach l0 st'.

(** [n] calls of [next_token] in a row: the scanner after them. *)
Fixpoint after_calls (U : UnicodeData) (n : nat) (l : Lexer) : result Lexer :=
  match n with
  | O => Ok l
  | S n' => r <- next_token U l ;; after_calls U n' (snd r)
  end.

(** ** Notions used in the statements *)

(** The texts between the delimiters of a block comment that the
    statements consider: characters other than the slash and the star, and
    block comments in turn. *)
Inductive comment_body : str -> Prop :=
| body_nil : comment_body []
| body_char c b :
    c <> chr "/" -> c <> chr "*" -> comment_body b -> comment_body (c :: b)
| body_nested b1 b2 :
    comment_body b1 -> comment_body b2 ->
    comment_body (lit "/*" ++ b1 ++ lit "*/" ++ b2).

(** The states the loop of the skipper goes through from the state [st0]. *)
Inductive skip_from (st0 : Lexer * SkipLocals) : Lexer * SkipLocals -> Prop :=
| from_here : skip_from st0 st0
| from_pass st st' :
    skip_from st0 st -> skip_body st = Ok (Continue st') -> skip_from st0 st'.

(** The pass of the skipper from [st] enters a block comment: the cursor
    is at "/*" and not inside a line comment. *)
Definition opens (st : Lexer * SkipLocals) : Prop :=
  current_comment_type (snd st) <> Some SINGLE_LINE /\
  firstn 2 (skipn (pos (fst st)) (source (fst st))) = lit "/*".

(** The single and the compound operator that start with [c]. *)
Definition operator_pair (c : char) : option (OperatorType * OperatorType) :=
  if char_eqb c (chr "-") then Some (MINUS, ASSIGN_MINUS)
  else if char_eqb c (chr "+") then Some (PLUS, ASSIGN_PLUS)
  else if char_eqb c (chr "*") then Some (MUL, ASSIGN_MUL)
  else if char_eqb c (chr "/") then Some (DIV, ASSIGN_DIV)
  else if char_eqb c (chr "%") then Some (MOD, ASSIGN_MOD)
  else None.

(** The locals of the skipper inside a block comment. *)
Definition in_block (depth cs : Z) : SkipLocals :=
  {| current_comment_type := Some MULTI_LINE;
     multi_line_comment_depth := depth;
     comment_start := cs |}.

(** What every pass of the skipper keeps, [l0] being the scanner on entry:
    the block-comment state is the state of positive depth, and then
    [comment_start] is the offset of a block-comment opener between the
    cursor on entry and the cursor. *)
Definition skip_inv (l0 : Lexer) (st : Lexer * SkipLocals) : Prop :=
  let l := fst st in
  let v := snd st in
  source l = source l0 /\
  pos l0 <= pos l /\
  ((current_comment_type v = Some MULTI_LINE <->
    (0 < multi_line_comment_depth v)%Z) /\
   (0 <= multi_line_comment_depth v)%Z) /\
  (st = (l0, skip_init) \/ pos l <= length (source l)) /\
  (current_comment_type v = Some MULTI_LINE ->
   exists cs,
     comment_start v = Z.of_nat cs /\
     pos l0 <= cs /\ cs + 2 <= pos l /\
     nth_error (source l) cs = Some (chr "/") /\
     nth_error (source l) (cs + 1) = Some (chr "*")).

(** The characters between the cursor and the end of the source. *)
Definition cursor_left (st : Lexer * SkipLocals) : nat :=
  length (source (fst st)) - pos (fst st).

(** The run of characters satisfying [p] that starts at the cursor. *)
Definition run_at (p : char -> bool) (l : Lexer) : str :=
  take_while p (skipn (pos l) (source l)).

(** What a call of [next_token] from [l] that returns [r] and leaves the
    scanner in [l'] guarantees: the source is left alone and the cursor
    never moves backwards; a token is only returned from inside the source
    and moves the cursor forward; the sentinel is only returned when the
    skipper has run to the end of input without an error. *)
Definition call_post (l : Lexer) (r : option Token) (l' : Lexer) : Prop :=
  source l' = source l /\ pos l <= pos l' /\
  match r with
  | Some _ => pos l < pos l' /\ pos l < length (source l)
  | None => length (source l) <= pos l' /\ skip_whitespace l = Ok (None, l')
  end.

(** [U] and [V] classify the characters of [s] alike. *)
Definition agree_on (s : str) (U V : UnicodeData) : Prop :=
  forall c, In c s ->
    isalpha U c = isalpha V c /\
    isdigit U c = isdigit V c /\
    lower U c = lower V c.

(** All characters of [s] are in the ASCII block. *)
Definition is_ascii (s : str) : bool := forallb (fun c => N.ltb c 128) s.

(** The characters [skip_whitespace] and [next_token] compare the current
    character with. *)
Definition specials : list char :=
  [chr " "; chr "009"; chr "010"; chr "013"; chr "/";
   chr "("; chr ")"; chr "{"; chr "}"; chr ";";
   chr "-"; chr "+"; chr "*"; chr "%"; chr "="].

(** The span of a token selects the token's text in the source. *)
Definition span_correct (src : str) (t : Token) : Prop :=
  span_text src (token_span t) = token_text t.

Definition mk_span (sl sc el ec : Z) : Span :=
  {| start_line := sl; start_col := sc; end_line := el; end_col := ec |}.

(** The number of line terminators in [s], each of ["\n"] and ["\r"]
    counting on its own. *)
Definition count_newlines (s : str) : nat := length (filter is_newline s).

(** The line bookkeeping of the scanner agrees with its source: [line] is
    the number of line terminators in front of the cursor and [line_start]
    the offset at which that line starts. *)
Definition in_step (l : Lexer) : Prop :=
  line_start l <= pos l <= length (source l) /\
  line l = count_newlines (firstn (pos l) (source l)) /\
  line_start l = line_offset (source l) (line l).

(** Operators and separators, the tokens whose text is fixed by their
    kind. *)
Definition is_symbol (t : Token) : bool :=
  match t with
  | Operator _ _ | Separator _ _ => true
  | _ => false
  end.

(** The text behind the cursor. *)
Definition rest (l : Lexer) : str := skipn (pos l) (source l).

(** The characters that start a separator or an operator. *)
Definition symbol_chars : list char :=
  [chr "("; chr ")"; chr "{"; chr "}"; chr ";";
   chr "-"; chr "+"; chr "*"; chr "/"; chr "%"; chr "="].

(** How [next_token] came to the token [tok] it returned from [l],
    leaving the scanner in [l']: [l1] is the scanner the skipper handed
    back; the span was built [k] characters behind it over [n]
    characters.  Either the skipper returned [tok] as its error; or [tok]
    was built at the cursor over one or two characters, which are its
    text; or a recognizer moved over the text first. *)
Definition token_origin (U : UnicodeData) (l : Lexer) (tok : Token)
    (l' l1 : Lexer) (k n : nat) : Prop :=
  (skip_whitespace l = Ok (Some tok, l1) /\ k = 0 /\ n = 0 /\
   exists message, tok = ErrorToken message (token_span tok) /\
                   2 <= length message) \/
  (skip_whitespace l = Ok (None, l1) /\ k = 0 /\ 1 <= n <= 2 /\
   pos l1 + n <= length (source l1) /\
   token_text tok = slice (source l1) (pos l1) (pos l1 + n) /\
   (is_symbol tok = true \/
    exists c, tok = ErrorToken [c] (token_span tok) /\
              char_in c symbol_chars = false /\
              is_identifier_char U c = false)) \/
  (skip_whitespace l = Ok (None, l1) /\ k = n /\
   n = length (token_text tok) /\ is_symbol tok = false /\
   exists c, nth_error (source l1) (pos l1) = Some c /\
     is_identifier_char U c = true /\
     ((is_numeric U c = true /\ lex_number U l1 = Ok (tok, l')) \/
      (is_numeric U c = false /\
       lex_identifier_or_keyword U l1 = Ok (tok, l')))).

(** The tokens [next_token] builds at the cursor: operators, separators
    and the error for a single unrecognized character. *)
Definition is_direct (t : Token) : bool :=
  match t with
  | Operator _ _ | Separator _ _ => true
  | ErrorToken message _ => length message =? 1
  | _ => false
  end.

(** The span [a] ends where the span [b] starts or in front of it, in the
    order of lines and columns. *)
Definition span_before (a b : Span) : Prop :=
  (end_line a < start_line b)%Z \/
  (end_line a = start_line b /\ (end_col a <= start_col b)%Z).

(** A span lies on one line and does not run backwards. *)
Definition span_on_line (a : Span) : Prop :=
  start_line a = end_line a /\ (start_col a <= end_col a)%Z.

(** The classes of tokens [next_token] tells apart by the character at
    the cursor. *)
Inductive TokenClass : Type :=
| SeparatorClass | OperatorClass | NumberClass | WordClass | UnknownClass.

(** The class of the token that starts with [c], in the order in which
    [next_token] tests the character. *)
Definition char_class (U : UnicodeData) (c : char) : TokenClass :=
  if char_in c [chr "("; chr ")"; chr "{"; chr "}"; chr ";"]
  then SeparatorClass
  else if char_in c [chr "-"; chr "+"; chr "*"; chr "/"; chr "%"; chr "="]
  then OperatorClass
  else if is_identifier_char U c
  then if is_numeric U c then NumberClass else WordClass
  else UnknownClass.

(** The class of a token; an error with a message of one character is
    the error for an unrecognized character, a longer one a malformed
    number. *)
Definition token_class (t : Token) : TokenClass :=
  match t with
  | Separator _ _ => SeparatorClass
  | Operator _ _ => OperatorClass
  | NumberLiteral _ _ _ => NumberClass
  | Identifier _ _ | Keyword _ _ => WordClass
  | ErrorToken message _ =>
      if length message =? 1 then UnknownClass else NumberClass
  end.

(** Texts the skipper is to pass over: blanks, tabs and line terminators,
    block comments, and line comments with the line terminator that ends
    them. *)
Inductive blank : str -> Prop :=
| blank_nil : blank []
| blank_char c b :
    char_in c [chr " "; chr "009"; chr "010"; chr "013"] = true ->
    blank b -> blank (c :: b)
| blank_block body b :
    comment_body body -> blank b ->
    blank (lit "/*" ++ body ++ lit "*/" ++ b)
| blank_line body c b :
    Forall (fun x => is_newline x = false) body -> is_newline c = true ->
    blank b -> blank (lit "//" ++ body ++ c :: b).

(** [s] is empty or starts a token: with a character that is no blank, no
    tab and no line terminator, and with neither "//" nor "/*". *)
Definition token_start (s : str) : Prop :=
  match s with
  | [] => True
  | c :: _ =>
      char_in c [chr " "; chr "009"; chr "010"; chr "013"] = false /\
      firstn 2 s <> lit "//" /\ firstn 2 s <> lit "/*"
  end.

(** Texts without a slash and without a star: the bodies of block
    comments that hold no other comment. *)
Definition plain (s : str) : Prop :=
  Forall (fun c => c <> chr "/" /\ c <> chr "*") s.

(** ** The skipper as the specification describes it *)

(** The states of the skipper of the specification. *)
Inductive SkipperState : Type := NONE | LINE_COMMENT | BLOCK_COMMENT.

(** How the skipper of the specification ends: the input is exhausted,
    a token starts, or the input ends inside a block comment. *)
Inductive SkipperEnd : Type :=
  InputExhausted | TokenStarts | CommentUnterminated.

(** The state machine of the specification on the text [s] that is left
    of the input, from the state [state] with the nesting depth
    [block_comment_depth], rule by rule: blank and tab; line terminator;
    slash; star and slash inside a block comment; any other character;
    end of input. *)
Fixpoint spec_skipper (s : str) (state : SkipperState)
    (block_comment_depth : nat) : SkipperEnd :=
  match s with
  | [] =>
      match state with
      | BLOCK_COMMENT => CommentUnterminated
      | _ => InputExhausted
      end
  | c :: s1 =>
      if char_in c [chr " "; chr "009"] then
        spec_skipper s1 state block_comment_depth
      else if char_in c [chr "010"; chr "013"] then
        spec_skipper s1
          (match state with LINE_COMMENT => NONE | _ => state end)
          block_comment_depth
      else if char_eqb c (chr "/") then
        match state, s1 with
        | LINE_COMMENT, _ => spec_skipper s1 state block_comment_depth
        | NONE, c1 :: s2 =>
            if char_eqb c1 (chr "/") then
              spec_skipper s2 LINE_COMMENT block_comment_depth
            else if char_eqb c1 (chr "*") then
              spec_skipper s2 BLOCK_COMMENT (S block_comment_depth)
            else TokenStarts
        | NONE, [] => TokenStarts
        | BLOCK_COMMENT, c1 :: s2 =>
            if char_eqb c1 (chr "*") then
              spec_skipper s2 BLOCK_COMMENT (S block_comment_depth)
            else spec_skipper s1 state block_comment_depth
        | BLOCK_COMMENT, [] => spec_skipper s1 state block_comment_depth
        end
      else
        match state, s1 with
        | BLOCK_COMMENT, c1 :: s2 =>
            if char_eqb c (chr "*") && char_eqb c1 (chr "/") then
              spec_skipper s2
                (if block_comment_depth - 1 =? 0 then NONE
                 else BLOCK_COMMENT)
                (block_comment_depth - 1)
            else spec_skipper s1 state block_comment_depth
        | BLOCK_COMMENT, [] => spec_skipper s1 state block_comment_depth
        | LINE_COMMENT, _ => spec_skipper s1 state block_comment_depth
        | NONE, _ => TokenStarts
        end
  end.

(** What is left of the input holds no further token: the skipper of the
    specification, started outside any comment, exhausts it. *)
Definition no_further_token (s : str) : Prop :=
  spec_skipper s NONE 0 = InputExhausted.

(** The state of the specification that the local variables of
    [skip_whitespace] stand for. *)
Definition spec_state (v : SkipLocals) : SkipperState :=
  match current_comment_type v with
  | None => NONE
  | Some SINGLE_LINE => LINE_COMMENT
  | Some MULTI_LINE => BLOCK_COMMENT
  end.

(** * Properties *)

(** ** Loops *)

Section WhileLoop.

Variables (S R : Type) (body : S -> result (ctl S R)).

Lemma while_loop_pass n s s' :
  body s = Ok (Continue s') ->
  while_loop body (Datatypes.S n) s = while_loop body n s'.
Proof. intros H; simpl; rewrite H; reflexivity. Qed.

Lemma while_loop_break n s s' :
  body s = Ok (Break s') ->
  while_loop body (Datatypes.S n) s = Ok (inl s').
Proof. intros H; simpl; rewrite H; reflexivity. Qed.

Lemma while_loop_return n s r :
  body s = Ok (Return r) ->
  while_loop body (Datatypes.S n) s = Ok (inr r).
Proof. intros H; simpl; rewrite H; reflexivity. Qed.

(** A finished loop does not depend on the fuel left over. *)
Lemma while_loop_more_fuel n m s r :
  while_loop body n s = Ok r -> n <= m -> while_loop body m s = Ok r.
Proof.
  revert m s; induction n as [|n IH]; intros m s H Hle; [discriminate|].
  destruct m as [|m]; [lia|].
  simpl in *. destruct (body s) as [[s'|s'|x]| |]; simpl in *;
    try discriminate; auto.
  apply IH; [assumption | lia].
Qed.

(** A loop whose body never fails and lowers a measure on every pass
    finishes within that many passes. *)
Lemma while_loop_finishes (mu : S -> nat) :
  (forall s, exists c, body s = Ok c) ->
  (forall s s', body s = Ok (Continue s') -> mu s' < mu s) ->
  forall n s, mu s < n -> exists r, while_loop body n s = Ok r.
Proof.
  intros Hok Hdec; induction n as [|n IH]; intros s Hlt; [lia|].
  destruct (Hok s) as [[s'|s'|x] Hc]; simpl; rewrite Hc; simpl; eauto.
  apply IH. specialize (Hdec _ _ Hc). lia.
Qed.

(** What holds on entry and is kept by every pass holds in the state in
    which the loop is left, where the body breaks or returns. *)
Lemma while_loop_exit (P : S -> Prop) :
  (forall s s', P s -> body s = Ok (Continue s') -> P s') ->
  forall n s r, P s -> while_loop body n s = Ok r ->
  exists s0, P s0 /\
    match r with
    | inl s' => body s0 = Ok (Break s')
    | inr x => body s0 = Ok (Return x)
    end.
Proof.
  intros Hkeep; induction n as [|n IH]; intros s r HP H; [discriminate|].
  simpl in H. destruct (body s) as [[s'|s'|x]| |] eqn:Hc; simpl in H;
    try discriminate.
  - apply (IH s' r); [exact (Hkeep _ _ HP Hc) | exact H].
  - injection H as <-. eauto.
  - injection H as <-. eauto.
Qed.

End WhileLoop.

(** ** Characters *)

Lemma char_eqb_eq a b : char_eqb a b = true <-> a = b.
Proof. apply N.eqb_eq. Qed.

Lemma str_eqb_eq a b : str_eqb a b = true <-> a = b.
Proof.
  revert b; induction a as [|x a IH]; intros [|y b]; simpl;
    try (split; [discriminate | congruence]); [tauto|].
  rewrite andb_true_iff, char_eqb_eq, IH. split.
  - intros [-> ->]; reflexivity.
  - intros H; injection H; auto.
Qed.

(** ** The cursor *)

Lemma has_more_lt l k : has_more l k = true <-> pos l + k < length (source l).
Proof. unfold has_more; apply Nat.ltb_lt. Qed.

Lemma has_more_ge l k : has_more l k = false <-> length (source l) <= pos l + k.
Proof. unfold has_more; apply Nat.ltb_ge. Qed.

(** A guarded [peek] returns a character of the source. *)
Lemma peek_guarded l k :
  has_more l k = true ->
  exists c, peek l k = Ok c /\ nth_error (source l) (pos l + k) = Some c.
Proof.
  intros H; apply has_more_lt in H. unfold peek.
  destruct (nth_error (source l) (pos l + k)) as [c|] eqn:E; eauto.
  apply nth_error_None in E; lia.
Qed.

Lemma peek_Ok l k c :
  peek l k = Ok c <-> nth_error (source l) (pos l + k) = Some c.
Proof.
  unfold peek; destruct (nth_error (source l) (pos l + k));
    split; intros H; congruence.
Qed.

Lemma rest_nth l k : nth_error (rest l) k = nth_error (source l) (pos l + k).
Proof. unfold rest. apply nth_error_skipn. Qed.

Lemma rest_cons l c r :
  rest l = c :: r -> nth_error (source l) (pos l) = Some c.
Proof.
  intros H. rewrite <- (Nat.add_0_r (pos l)), <- rest_nth, H. reflexivity.
Qed.

Lemma char_guarded l c :
  nth_error (source l) (pos l) = Some c ->
  has_more l 0 = true /\ peek l 0 = Ok c.
Proof.
  intros E. split.
  - apply has_more_lt. rewrite Nat.add_0_r. apply nth_error_Some. congruence.
  - apply peek_Ok. now rewrite Nat.add_0_r.
Qed.

(** ** The skipper *)

(** Case analysis along the branches of a body: every test is split and
    every guarded [peek] is replaced by the character it returns. *)
Ltac split_tests :=
  simpl; repeat (
    match goal with
    | |- context [has_more ?l ?k] => destruct (has_more l k) eqn:?
    | |- context [if ?b then _ else _] => destruct b eqn:?
    | Hm : has_more ?l ?k = true |- context [peek ?l ?k] =>
        let c := fresh "c" in
        let E := fresh "E" in
        destruct (peek_guarded l k Hm) as (c & -> & E)
    end; simpl).

Ltac split_tests_in H :=
  simpl in H; repeat (
    match type of H with
    | context [has_more ?l ?k] => destruct (has_more l k) eqn:?
    | context [if ?b then _ else _] => destruct b eqn:?
    | context [peek ?l ?k] =>
        match goal with
        | Hm : has_more l k = true |- _ =>
            let c := fresh "c" in
            let E := fresh "E" in
            let P := fresh "P" in
            destruct (peek_guarded l k Hm) as (c & P & E);
            rewrite P in H; clear P
        end
    end; simpl in H).

(** No pass of the skipper indexes the source out of range. *)
Lemma skip_body_ok st : exists c, skip_body st = Ok c.
Proof.
  destruct st as [l v]; unfold skip_body.
  split_tests; eauto.
Qed.

(** Every pass that goes on moves the cursor forward by one or two
    characters inside the source, and leaves the source alone. *)
Lemma skip_body_progress l v l' v' :
  skip_body (l, v) = Ok (Continue (l', v')) ->
  source l' = source l /\
  pos l < pos l' <= pos l + 2 /\ pos l' <= length (source l).
Proof.
  unfold skip_body; intros H.
  split_tests_in H; try discriminate;
    injection H as <- <-; simpl;
    repeat match goal with
           | Hm : has_more _ _ = true |- _ => apply has_more_lt in Hm
           end; repeat split; lia.
Qed.

Lemma comment_type_eqb_eq a b : comment_type_eqb a b = true <-> a = b.
Proof.
  destruct a as [[]|], b as [[]|]; simpl; split; congruence.
Qed.

Lemma comment_type_eqb_neq a b : comment_type_eqb a b = false <-> a <> b.
Proof.
  destruct a as [[]|], b as [[]|]; simpl; split; congruence.
Qed.

(** Turns the recorded outcomes of the tests into equations and bounds. *)
Ltac test_facts :=
  repeat match goal with
  | H : comment_type_eqb _ _ = true |- _ => apply comment_type_eqb_eq in H
  | H : comment_type_eqb _ _ = false |- _ => apply comment_type_eqb_neq in H
  | H : char_eqb _ _ = true |- _ => apply char_eqb_eq in H
  | H : andb _ _ = true |- _ => apply andb_true_iff in H; destruct H
  | H : orb _ _ = false |- _ => apply orb_false_iff in H; destruct H
  | H : has_more _ _ = true |- _ => apply has_more_lt in H
  | H : has_more _ _ = false |- _ => apply has_more_ge in H
  | H : (_ =? _)%Z = true |- _ => apply Z.eqb_eq in H
  | H : (_ =? _)%Z = false |- _ => apply Z.eqb_neq in H
  | H : (_ >? _)%Z = true |- _ => apply Z.gtb_lt in H
  | H : (_ >? _)%Z = false |- _ => rewrite Z.gtb_ltb in H; apply Z.ltb_ge in H
  | H : context [_ + 0] |- _ => rewrite Nat.add_0_r in H
  end.

Lemma skip_inv_start l0 : skip_inv l0 (l0, skip_init).
Proof.
  unfold skip_inv; simpl. repeat split; auto; try lia; discriminate.
Qed.

Lemma skip_inv_pass l0 st st' :
  skip_inv l0 st -> skip_body st = Ok (Continue st') -> skip_inv l0 st'.
Proof.
  destruct st as [l v], st' as [l' v'].
  intros (Hsrc & Hpos & Hdepth & _ & Hcs) H.
  pose proof (skip_body_progress _ _ H) as (Hs & Hp & Hlen).
  unfold skip_inv; simpl in *.
  split; [congruence|]. split; [lia|].
  rewrite Hs. split; [|split; [right; exact Hlen|]].
  - unfold skip_body in H. split_tests_in H; try discriminate;
      injection H as <- <-; simpl; test_facts; subst;
      try exact Hdepth; destruct Hdepth as [Hd Hd0];
      try match goal with
          | Hm : current_comment_type v = Some MULTI_LINE |- _ =>
              pose proof (proj1 Hd Hm)
          end;
      (split; [split; intros; try discriminate; try lia; try tauto;
               try congruence | lia]).
  - unfold skip_body in H. split_tests_in H; try discriminate;
      injection H as <- <-; simpl in *; test_facts; subst;
      try (intros Hm; destruct (Hcs Hm) as (cs & ? & ? & ? & ? & ?);
           exists cs; repeat split; auto; lia);
      try discriminate;
      try (intros _;
           match goal with
           | Hm : current_comment_type v = Some MULTI_LINE |- _ =>
               destruct (Hcs Hm) as (cs & ? & ? & ? & ? & ?)
           end; exists cs; repeat split; auto; lia);
      try (intros _; exists (pos l); repeat split; auto; lia).
Qed.

Lemma skip_reach_inv l0 st : skip_reach l0 st -> skip_inv l0 st.
Proof.
  induction 1; [apply skip_inv_start | eapply skip_inv_pass; eauto].
Qed.

Lemma skip_body_Break st st' :
  skip_body st = Ok (Break st') <-> st' = st /\ has_more (fst st) 0 = false.
Proof.
  destruct st as [l v]; unfold skip_body; simpl. split.
  - intros H. split_tests_in H; try discriminate.
    injection H as <-; auto.
  - intros [-> ->]; reflexivity.
Qed.

(** The skipper returns from inside its loop only outside any comment,
    in front of a character that is no blank and no line terminator. *)
Lemma skip_body_Return l v out :
  skip_body (l, v) = Ok (Return out) ->
  out = (None, l) /\ has_more l 0 = true /\
  ((current_comment_type v = Some MULTI_LINE <->
    (0 < multi_line_comment_depth v)%Z) ->
   current_comment_type v = None) /\
  exists c, nth_error (source l) (pos l) = Some c /\
    char_in c [chr " "; chr "009"; chr "010"; chr "013"] = false.
Proof.
  unfold skip_body; intros H.
  assert (Hn : forall t, t <> Some SINGLE_LINE -> t <> Some MULTI_LINE ->
                         t = None) by (intros [[]|]; congruence).
  split_tests_in H; try discriminate; injection H as <-; test_facts;
    (split; [reflexivity|]); (split; [first [reflexivity | apply has_more_lt; lia]|]);
    (split; [intros [Hd _]; apply Hn; auto; intros Hm;
             apply Hd in Hm; lia|]);
    eexists; (split; [eassumption|]); simpl;
    repeat match goal with Hc : char_eqb _ _ = false |- _ =>
             rewrite Hc; clear Hc end; reflexivity.
Qed.

Lemma skip_body_lowers st st' :
  skip_body st = Ok (Continue st') -> cursor_left st' < cursor_left st.
Proof.
  destruct st as [l v], st' as [l' v']; intros H.
  apply skip_body_progress in H as (Hs & Hp & Hlen).
  unfold cursor_left; simpl. rewrite Hs. lia.
Qed.

(** The loop of the skipper finishes within the fuel it is given. *)
Lemma skip_loop_finishes st n :
  cursor_left st < n -> exists r, while_loop skip_body n st = Ok r.
Proof.
  apply while_loop_finishes; [apply skip_body_ok | apply skip_body_lowers].
Qed.

Lemma while_loop_unique (S R : Type) (body : S -> result (ctl S R)) n m s r r' :
  while_loop body n s = Ok r -> while_loop body m s = Ok r' -> r = r'.
Proof.
  intros H H'.
  apply while_loop_more_fuel with (m := Nat.max n m) in H; [|lia].
  apply while_loop_more_fuel with (m := Nat.max n m) in H'; [|lia].
  congruence.
Qed.

(** From a state the loop goes through, the loop ends as it does from the
    start. *)
Lemma skip_reach_result l0 st n r :
  skip_reach l0 st -> while_loop skip_body n st = Ok r ->
  while_loop skip_body (loop_fuel l0) (l0, skip_init) = Ok r.
Proof.
  intros Hreach; revert n r; induction Hreach as [|st st' _ IH Hb];
    intros n r H.
  - destruct (skip_loop_finishes (l0, skip_init) (n := loop_fuel l0))
      as [r' Hr']; [unfold cursor_left, loop_fuel; simpl; lia|].
    rewrite Hr'. f_equal. eapply while_loop_unique; eauto.
  - apply (IH (S n)). rewrite (@while_loop_pass _ _ skip_body n st st' Hb). exact H.
Qed.

Lemma skip_whitespace_Break l st :
  skip_reach l st -> has_more (fst st) 0 = false ->
  skip_whitespace l = Ok (skip_finish st).
Proof.
  intros Hreach Hm. unfold skip_whitespace.
  rewrite (@skip_reach_result l st 1 (inl st) Hreach); [reflexivity|].
  apply while_loop_break, skip_body_Break; auto.
Qed.

Lemma skip_whitespace_Return l st out :
  skip_reach l st -> skip_body st = Ok (Return out) ->
  skip_whitespace l = Ok out.
Proof.
  intros Hreach Hb. unfold skip_whitespace.
  rewrite (@skip_reach_result l st 1 (inr out) Hreach); [reflexivity|].
  now apply while_loop_return.
Qed.

(** The skipper always comes back, in one of two ways: its loop ran into
    the end of input, or it stopped in front of a token. *)
Lemma skip_whitespace_cases l :
  exists st, skip_reach l st /\
    ((has_more (fst st) 0 = false /\
      skip_whitespace l = Ok (skip_finish st)) \/
     (skip_body st = Ok (Return (None, fst st)) /\
      skip_whitespace l = Ok (None, fst st))).
Proof.
  destruct (skip_loop_finishes (l, skip_init) (n := loop_fuel l))
    as [r Hr]; [unfold cursor_left, loop_fuel; simpl; lia|].
  destruct (while_loop_exit skip_body (skip_reach l)
              (fun s s' Hs Hb => reach_pass Hs Hb) _ _ (reach_start l) Hr)
    as (st & Hreach & Hexit).
  exists st; split; [assumption|]. destruct r as [st'|out].
  - apply skip_body_Break in Hexit as [-> Hm]. left. split; [assumption|].
    now apply skip_whitespace_Break.
  - right. destruct st as [l1 v1].
    pose proof (skip_body_Return _ _ Hexit) as (-> & _). simpl.
    split; [assumption|]. eapply skip_whitespace_Return; eauto.
Qed.

(** ** The recognizers *)

Lemma advance_0 l : advance l 0 = l.
Proof. destruct l; unfold advance; simpl; f_equal; lia. Qed.

Lemma advance_advance l a b : advance (advance l a) b = advance l (a + b).
Proof. unfold advance; simpl; f_equal; lia. Qed.

Lemma skipn_nth_error (s : str) i c :
  nth_error s i = Some c -> skipn i s = c :: skipn (S i) s.
Proof.
  revert s; induction i as [|i IH]; intros [|x s] H; simpl in *;
    try discriminate.
  - congruence.
  - now apply IH.
Qed.

Lemma take_while_firstn p (s : str) :
  firstn (length (take_while p s)) s = take_while p s.
Proof.
  induction s as [|c s IH]; simpl; [reflexivity|].
  destruct (p c); simpl; [f_equal; exact IH | reflexivity].
Qed.

Lemma take_while_length p (s : str) : length (take_while p s) <= length s.
Proof.
  induction s as [|c s IH]; simpl; [lia|]. destruct (p c); simpl; lia.
Qed.

Lemma take_while_all p (s : str) : Forall (fun c => p c = true) (take_while p s).
Proof.
  induction s as [|c s IH]; simpl; [constructor|].
  destruct (p c) eqn:E; constructor; assumption.
Qed.

(** The run [take_while] returns is maximal: the source ends behind it or
    goes on with a character outside [p]. *)
Lemma take_while_maximal p (s : str) :
  match skipn (length (take_while p s)) s with
  | [] => True
  | c :: _ => p c = false
  end.
Proof.
  induction s as [|c s IH]; simpl; [exact I|].
  destruct (p c) eqn:E; simpl; assumption.
Qed.

Lemma scan_loop p n : forall l,
  length (source l) - pos l < n ->
  while_loop (scan_body p) n l = Ok (inl (advance l (length (run_at p l)))).
Proof.
  unfold run_at.
  induction n as [|n IH]; intros l Hn; [lia|].
  destruct (has_more l 0) eqn:Hm.
  - destruct (peek_guarded l 0 Hm) as (c & Hpk & E).
    rewrite Nat.add_0_r in E. rewrite (skipn_nth_error _ _ E). simpl take_while.
    apply has_more_lt in Hm.
    destruct (p c) eqn:Hp.
    + rewrite (@while_loop_pass _ _ (scan_body p) n l (advance l 1)).
      * rewrite IH; [|simpl; lia]. simpl.
        rewrite advance_advance. simpl. now rewrite Nat.add_1_r.
      * unfold scan_body. apply has_more_lt in Hm. rewrite Hm, Hpk. simpl.
        now rewrite Hp.
    + rewrite (@while_loop_break _ _ (scan_body p) n l l).
      * simpl. now rewrite advance_0.
      * unfold scan_body. apply has_more_lt in Hm. rewrite Hm, Hpk. simpl.
        now rewrite Hp.
  - rewrite (@while_loop_break _ _ (scan_body p) n l l).
    + apply has_more_ge in Hm.
      rewrite skipn_all2; [|lia]. simpl. now rewrite advance_0.
    + unfold scan_body. now rewrite Hm.
Qed.

(** The loop of a recognizer moves the cursor over the run at the cursor
    and nothing else; it neither fails nor runs out of fuel. *)
Lemma scan_while_run p l :
  scan_while p l = Ok (advance l (length (run_at p l))).
Proof.
  unfold scan_while. rewrite scan_loop; [reflexivity|].
  unfold loop_fuel; lia.
Qed.

Lemma slice_run p l :
  slice (source l) (pos l) (pos l + length (run_at p l)) = run_at p l.
Proof.
  unfold slice, run_at.
  replace (pos l + _ - pos l) with
    (length (take_while p (skipn (pos l) (source l)))) by lia.
  apply take_while_firstn.
Qed.

Lemma find_keyword_spelling id_str k :
  find_keyword KeywordType_members id_str = Some k <-> id_str = keyword k.
Proof.
  unfold KeywordType_members; cbn [find_keyword]. split.
  - destruct (str_eqb (keyword IF) id_str) eqn:E1;
      [apply str_eqb_eq in E1; intros [= Hk]; subst k; auto|].
    destruct (str_eqb (keyword ELSE) id_str) eqn:E2;
      [apply str_eqb_eq in E2; intros [= Hk]; subst k; auto|].
    destruct (str_eqb (keyword WHILE) id_str) eqn:E3;
      [apply str_eqb_eq in E3; intros [= Hk]; subst k; auto|].
    discriminate.
  - intros ->. destruct k; reflexivity.
Qed.

Section RecognizerFacts.

Variable U : UnicodeData.

(** What [lex_identifier_or_keyword] computes, in closed form. *)
Lemma lex_identifier_or_keyword_run l :
  let id_str := run_at (is_identifier_char U) l in
  let l1 := advance l (length id_str) in
  lex_identifier_or_keyword U l =
  Ok (match find_keyword KeywordType_members id_str with
      | Some value => Keyword value (fst (build_span l1 (length id_str)))
      | None => Identifier id_str (fst (build_span l1 (length id_str)))
      end,
      advance l1 (length id_str)).
Proof.
  intros id_str l1. unfold lex_identifier_or_keyword.
  rewrite scan_while_run. cbn [bind advance source pos].
  rewrite slice_run. fold id_str.
  replace (pos l + length id_str - pos l) with (length id_str) by lia.
  destruct (find_keyword KeywordType_members id_str); reflexivity.
Qed.

End RecognizerFacts.

Lemma run_at_cons p l c :
  nth_error (source l) (pos l) = Some c -> p c = true ->
  run_at p l = c :: run_at p (advance l 1).
Proof.
  intros E Hp. unfold run_at. rewrite (skipn_nth_error _ _ E). simpl.
  rewrite Hp. now rewrite Nat.add_1_r.
Qed.

(** What the skipper hands back to [next_token]. *)
Lemma skip_whitespace_ok l :
  exists e l', skip_whitespace l = Ok (e, l') /\
    source l' = source l /\ pos l <= pos l' /\
    match e with
    | Some _ => pos l < pos l' /\ pos l' = length (source l)
    | None => l' = l \/ pos l' <= length (source l)
    end.
Proof.
  destruct (skip_whitespace_cases l) as ([l1 v] & Hreach & Hcase).
  pose proof (skip_reach_inv Hreach) as (Hsrc & Hpos & [Hd _] & Hlen & Hcs).
  simpl in *. destruct Hcase as [[Hm ->] | [_ ->]].
  - unfold skip_finish. rewrite Hm. simpl.
    destruct (comment_type_eqb (current_comment_type v) (Some MULTI_LINE))
      eqn:Ht; simpl.
    + apply comment_type_eqb_eq in Ht.
      destruct (Hcs Ht) as (cs & _ & Hcs1 & Hcs2 & _).
      apply has_more_ge in Hm.
      destruct Hlen as [Hl | Hl]; [injection Hl as -> ->; discriminate|].
      eexists _, _; split; [reflexivity|]. simpl.
      rewrite <- Hsrc. repeat split; auto; lia.
    + eexists _, _; split; [reflexivity|]. repeat split; auto.
      destruct Hlen as [Hl | Hl]; [injection Hl as -> ->; auto|].
      right; congruence.
  - eexists _, _; split; [reflexivity|]. repeat split; auto.
    destruct Hlen as [Hl | Hl]; [injection Hl as -> ->; auto|].
    right; congruence.
Qed.

Section Dispatch.

Variable U : UnicodeData.

Lemma lex_identifier_or_keyword_ok l c :
  nth_error (source l) (pos l) = Some c -> is_identifier_char U c = true ->
  exists tok l', lex_identifier_or_keyword U l = Ok (tok, l') /\
    source l' = source l /\ pos l < pos l'.
Proof.
  intros E Hc. rewrite lex_identifier_or_keyword_run.
  eexists _, _; split; [reflexivity|]. simpl.
  rewrite (run_at_cons _ _ E Hc). simpl. split; [reflexivity | lia].
Qed.

Lemma lex_number_ok l c :
  nth_error (source l) (pos l) = Some c -> is_numeric U c = true ->
  exists tok l', lex_number U l = Ok (tok, l') /\
    source l' = source l /\ pos l < pos l'.
Proof.
  intros E Hc. unfold lex_number, is_hex_prefix.
  assert (Hpk : peek l 0 = Ok c) by (apply peek_Ok; now rewrite Nat.add_0_r).
  rewrite Hpk. cbn [bind].
  assert (Hdec : exists tok l',
    (l1 <- scan_while (is_numeric U) l ;;
     first <- match nth_error (source l1) (pos l) with
              | Some c => Ok c
              | None => IndexError
              end ;;
     if char_eqb first (chr "0") && (1 <? pos l1 - pos l)
     then let '(sp, l2) := build_span l1 (pos l1 - pos l) in
          Ok (ErrorToken (slice (source l1) (pos l) (pos l1)) sp, l2)
     else let '(sp, l2) := build_span l1 (pos l1 - pos l) in
          Ok (NumberLiteral (slice (source l1) (pos l) (pos l1)) 10 sp, l2))
    = Ok (tok, l') /\ source l' = source l /\ pos l < pos l').
  { rewrite scan_while_run. cbn [bind advance source pos]. rewrite E.
    cbn [bind]. rewrite (run_at_cons _ _ E Hc).
    destruct (char_eqb c (chr "0") && _); simpl;
      eexists _, _; (split; [reflexivity|]); simpl; split; auto; lia. }
  destruct (char_eqb c (chr "0")); [|exact Hdec].
  destruct (has_more l 1) eqn:Hm; [|exact Hdec].
  destruct (peek_guarded l 1 Hm) as (c1 & -> & _). cbn [bind].
  destruct (char_in c1 _); [|exact Hdec].
  rewrite scan_while_run. cbn [bind advance source pos].
  destruct (_ =? 2); simpl;
    eexists _, _; (split; [reflexivity|]); simpl; split; auto; lia.
Qed.

(** [next_token] always comes back, with a token or the sentinel. *)
Lemma next_token_ok l :
  exists r l', next_token U l = Ok (r, l') /\ call_post l r l'.
Proof.
  unfold next_token.
  destruct (skip_whitespace_ok l) as (e & l1 & Hsk & Hsrc & Hpos & He).
  rewrite Hsk. cbn [bind]. destruct e as [t|].
  - eexists _, _; split; [reflexivity|].
    unfold call_post. repeat split; auto; lia.
  - destruct (length (source l1) <=? pos l1) eqn:Hend.
    + apply Nat.leb_le in Hend.
      eexists _, _; split; [reflexivity|].
      unfold call_post. repeat split; auto; congruence.
    + apply Nat.leb_gt in Hend.
      assert (Hm : has_more l1 0 = true) by (apply has_more_lt; lia).
      destruct (peek_guarded l1 0 Hm) as (c & -> & E). cbn [bind].
      rewrite Nat.add_0_r in E.
      assert (Hl : pos l < length (source l)) by (rewrite <- Hsrc; lia).
      assert (Hsome : forall (t : Token) l',
        source l' = source l1 -> pos l1 < pos l' ->
        exists r l'', Ok (Some t, l') = Ok (r, l'') /\ call_post l r l'').
      { intros t l' Hs Hp. eexists _, _; split; [reflexivity|].
        unfold call_post. repeat split; auto; try congruence; lia. }
      assert (Hsep : forall s, exists r l',
        some_token (Ok (separator l1 s)) = Ok (r, l') /\ call_post l r l').
      { intros s. apply Hsome; simpl; auto; lia. }
      assert (Hop : forall a b, exists r l',
        some_token (single_or_assign l1 a b) = Ok (r, l') /\
        call_post l r l').
      { intros a b. unfold single_or_assign.
        destruct (has_more l1 1) eqn:Hm1.
        - destruct (peek_guarded l1 1 Hm1) as (c1 & -> & _). cbn [bind].
          destruct (char_eqb c1 _); apply Hsome; simpl; auto; lia.
        - apply Hsome; simpl; auto; lia. }
      repeat match goal with
             | |- context [if char_eqb c ?x then _ else _] =>
                 destruct (char_eqb c x); [solve [auto] |]
             end.
      destruct (char_eqb c (chr "=")).
      { cbv beta iota zeta delta [build_span].
        apply Hsome; simpl; auto; lia. }
      destruct (is_identifier_char U c) eqn:Hid.
      * destruct (is_numeric U c) eqn:Hnum.
        -- destruct (lex_number_ok _ E Hnum) as (tok & l' & -> & Hs & Hp).
           apply Hsome; simpl; auto.
        -- destruct (lex_identifier_or_keyword_ok _ E Hid)
             as (tok & l' & -> & Hs & Hp).
           apply Hsome; simpl; auto.
      * cbv beta iota zeta delta [build_span].
        apply Hsome; simpl; auto; lia.
Qed.

(** At the end of input [next_token] returns the sentinel and leaves the
    scanner as it is. *)
Lemma next_token_at_end l :
  length (source l) <= pos l -> next_token U l = Ok (None, l).
Proof.
  intros H. unfold next_token.
  assert (Hm : has_more l 0 = false) by (apply has_more_ge; lia).
  rewrite (@skip_whitespace_Break l (l, skip_init) (reach_start l) Hm).
  unfold skip_finish. simpl. rewrite andb_false_r.
  apply Nat.leb_le in H. now rewrite H.
Qed.

End Dispatch.

(** ** The scanner only looks at the characters of its source *)

Lemma In_skipn (s : str) n c : In c (skipn n s) -> In c s.
Proof.
  intros H. rewrite <- (firstn_skipn n s). apply in_or_app; now right.
Qed.

Lemma take_while_ext p q (s : str) :
  (forall c, In c s -> p c = q c) -> take_while p s = take_while q s.
Proof.
  induction s as [|c s IH]; intros H; simpl; [reflexivity|].
  rewrite <- (H c) by (now left).
  destruct (p c); [f_equal; apply IH; intros; apply H; now right | reflexivity].
Qed.

Lemma scan_while_ext p q l :
  (forall c, In c (source l) -> p c = q c) -> scan_while p l = scan_while q l.
Proof.
  intros H. rewrite !scan_while_run. unfold run_at.
  rewrite (take_while_ext p q); [reflexivity|].
  intros c Hc; apply H; eapply In_skipn; eauto.
Qed.

Section Agreement.

Variables U V : UnicodeData.

Lemma is_identifier_char_ext s c :
  agree_on s U V -> In c s -> is_identifier_char U c = is_identifier_char V c.
Proof.
  intros H Hc. destruct (H c Hc) as (Ha & Hd & _).
  unfold is_identifier_char. now rewrite Ha, Hd.
Qed.

Lemma is_numeric_ext s c :
  agree_on s U V -> In c s -> is_numeric U c = is_numeric V c.
Proof. intros H Hc. destruct (H c Hc) as (_ & Hd & _). exact Hd. Qed.

Lemma is_hex_ext s c :
  agree_on s U V -> In c s -> is_hex U c = is_hex V c.
Proof.
  intros H Hc. destruct (H c Hc) as (_ & Hd & Hl).
  unfold is_hex. now rewrite Hd, Hl.
Qed.

Lemma lex_identifier_or_keyword_ext l :
  agree_on (source l) U V ->
  lex_identifier_or_keyword U l = lex_identifier_or_keyword V l.
Proof.
  intros H. unfold lex_identifier_or_keyword.
  rewrite (scan_while_ext (is_identifier_char U) (is_identifier_char V));
    [reflexivity|].
  intros c Hc; eapply is_identifier_char_ext; eauto.
Qed.

Lemma lex_number_ext l :
  agree_on (source l) U V -> lex_number U l = lex_number V l.
Proof.
  intros H. unfold lex_number.
  destruct (is_hex_prefix l) as [[|]| |]; cbn [bind]; try reflexivity.
  - rewrite (scan_while_ext (is_hex U) (is_hex V)); [reflexivity|].
    intros c Hc; eapply is_hex_ext; eauto.
  - rewrite (scan_while_ext (is_numeric U) (is_numeric V)); [reflexivity|].
    intros c Hc; eapply is_numeric_ext; eauto.
Qed.

Lemma next_token_ext l :
  agree_on (source l) U V -> next_token U l = next_token V l.
Proof.
  intros H. unfold next_token.
  destruct (skip_whitespace_ok l) as (e & l1 & -> & Hsrc & _).
  cbn [bind]. destruct e; [reflexivity|].
  destruct (_ <=? _); [reflexivity|].
  destruct (peek l1 0) as [c| |] eqn:Hpk; cbn [bind]; try reflexivity.
  apply peek_Ok, nth_error_In in Hpk. rewrite Hsrc in Hpk.
  rewrite <- Hsrc in H.
  rewrite (is_identifier_char_ext c H), (is_numeric_ext c H),
    (lex_number_ext l1 H), (lex_identifier_or_keyword_ext l1 H)
    by (rewrite Hsrc; exact Hpk).
  reflexivity.
Qed.

Lemma tokens_ext n : forall l,
  agree_on (source l) U V -> tokens U n l = tokens V n l.
Proof.
  induction n as [|n IH]; intros l H; simpl; [reflexivity|].
  rewrite (next_token_ext l H).
  destruct (next_token_ok V l) as ([t|] & l' & -> & Hsrc & _); cbn [bind];
    [|reflexivity].
  rewrite IH; [reflexivity | now rewrite Hsrc].
Qed.

Lemma coverage_ext n : forall l,
  agree_on (source l) U V -> coverage U n l = coverage V n l.
Proof.
  induction n as [|n IH]; intros l H; simpl; [reflexivity|].
  rewrite (next_token_ext l H).
  destruct (skip_whitespace l) as [sk| |]; cbn [bind]; try reflexivity.
  destruct (next_token_ok V l) as ([t|] & l' & -> & Hsrc & _); cbn [bind];
    [|reflexivity].
  rewrite IH; [reflexivity | now rewrite Hsrc].
Qed.

End Agreement.

Lemma ascii_agree U s :
  ascii_compatible U -> is_ascii s = true -> agree_on s U python_ascii.
Proof.
  intros HU Hs c Hc. apply HU.
  unfold is_ascii in Hs. rewrite forallb_forall in Hs.
  apply N.ltb_lt. now apply Hs.
Qed.

Lemma python_ascii_compatible : ascii_compatible python_ascii.
Proof. intros c _; auto. Qed.

(** On an ASCII source the scanner does what it does with the ASCII
    tables. *)
Lemma next_token_ascii U l :
  ascii_compatible U -> is_ascii (source l) = true ->
  next_token U l = next_token python_ascii l.
Proof. intros HU Hs. apply next_token_ext, ascii_agree; assumption. Qed.

Lemma tokens_ascii U n l :
  ascii_compatible U -> is_ascii (source l) = true ->
  tokens U n l = tokens python_ascii n l.
Proof. intros HU Hs. apply tokens_ext, ascii_agree; assumption. Qed.

Lemma coverage_ascii U n l :
  ascii_compatible U -> is_ascii (source l) = true ->
  coverage U n l = coverage python_ascii n l.
Proof. intros HU Hs. apply coverage_ext, ascii_agree; assumption. Qed.

(** ** Repeated calls *)

Section Calls.

Variable U : UnicodeData.

Lemma after_calls_ok n : forall l,
  exists l', after_calls U n l = Ok l' /\
    source l' = source l /\ pos l <= pos l'.
Proof.
  induction n as [|n IH]; intros l; simpl.
  - exists l; auto.
  - destruct (next_token_ok U l) as (r & l1 & -> & Hs & Hp & _).
    cbn [bind snd]. destruct (IH l1) as (l' & -> & Hs' & Hp').
    exists l'; repeat split; auto; try congruence; lia.
Qed.

Lemma after_calls_at_end n : forall l,
  length (source l) <= pos l -> after_calls U n l = Ok l.
Proof.
  induction n as [|n IH]; intros l H; simpl; [reflexivity|].
  rewrite (next_token_at_end U l H). cbn [bind snd]. now apply IH.
Qed.

(** Calling [next_token] until the sentinel takes at most as many calls
    as there are characters left, and one more for the sentinel. *)
Lemma tokens_reach_sentinel n : forall l,
  length (source l) - pos l < n ->
  exists ts, tokens U n l = Ok (ts, true) /\
    length ts <= length (source l) - pos l.
Proof.
  induction n as [|n IH]; intros l Hn; [lia|]. simpl.
  destruct (next_token_ok U l) as ([t|] & l1 & -> & Hs & Hp & Hr);
    cbn [bind].
  - destruct Hr as [Hlt Hlen].
    destruct (IH l1) as (ts & -> & Hts); [rewrite Hs; lia|].
    cbn [bind fst snd]. eexists; split; [reflexivity|].
    simpl. rewrite Hs in Hts. lia.
  - eexists; split; [reflexivity|]. simpl; lia.
Qed.

End Calls.

Lemma tokens_ok U n : forall l, exists x, tokens U n l = Ok x.
Proof.
  induction n as [|n IH]; intros l; simpl; [eauto|].
  destruct (next_token_ok U l) as ([t|] & l1 & -> & _); cbn [bind]; eauto.
  destruct (IH l1) as (x & ->); cbn [bind]; eauto.
Qed.

Lemma peek_out_of_range l k : peek l k = IndexError <-> has_more l k = false.
Proof.
  unfold peek. rewrite has_more_ge, <- nth_error_None.
  destruct (nth_error (source l) (pos l + k)); split; congruence.
Qed.

Lemma slice_from_nat (s : str) (n : nat) : slice_from s (Z.of_nat n) = skipn n s.
Proof.
  unfold slice_from.
  destruct (Z.of_nat n <? 0)%Z eqn:E; [apply Z.ltb_lt in E; lia|].
  now rewrite Nat2Z.id.
Qed.

Lemma firstn_2_skipn (s : str) i a b :
  nth_error s i = Some a -> nth_error s (i + 1) = Some b ->
  firstn 2 (skipn i s) = [a; b].
Proof.
  intros Ha Hb. rewrite (skipn_nth_error _ _ Ha).
  rewrite Nat.add_1_r in Hb. rewrite (skipn_nth_error _ _ Hb). reflexivity.
Qed.

Lemma specials_ascii :
  forallb (fun x => N.ltb x 128 && negb (is_identifier_char python_ascii x))
    specials = true.
Proof. reflexivity. Qed.

(** No identifier character is one of the characters the scanner treats
    on its own. *)
Lemma identifier_char_not_special U c :
  ascii_compatible U -> is_identifier_char U c = true ->
  char_in c specials = false.
Proof.
  intros HU Hc. destruct (char_in c specials) eqn:E; [|reflexivity].
  unfold char_in in E. apply existsb_exists in E as (x & Hx & Hcx).
  apply char_eqb_eq in Hcx. subst x.
  pose proof specials_ascii as Hs. rewrite forallb_forall in Hs.
  apply Hs in Hx. apply andb_true_iff in Hx as [Hlt Hno].
  apply N.ltb_lt in Hlt. destruct (HU c Hlt) as (Ha & Hd & _).
  unfold is_identifier_char in Hc, Hno. rewrite Ha, Hd in Hc.
  rewrite Hc in Hno. discriminate.
Qed.

Ltac special_facts H :=
  unfold specials, char_in in H; cbn [existsb] in H;
  repeat (apply orb_false_iff in H;
          let H1 := fresh "Hsp" in destruct H as [H1 H]).

(** Outside any comment the skipper stops in front of a character that is
    no blank, no line terminator and no slash. *)
Lemma skip_body_at_token l v c :
  current_comment_type v = None ->
  nth_error (source l) (pos l) = Some c ->
  char_in c [chr " "; chr "009"; chr "010"; chr "013"; chr "/"] = false ->
  skip_body (l, v) = Ok (Return (None, l)).
Proof.
  intros Ht E Hc. unfold skip_body.
  assert (Hm : has_more l 0 = true).
  { apply has_more_lt. rewrite Nat.add_0_r. apply nth_error_Some. congruence. }
  assert (Hpk : peek l 0 = Ok c) by (apply peek_Ok; now rewrite Nat.add_0_r).
  rewrite Hm, Hpk, Ht. cbn [negb bind].
  unfold char_in in *. cbn [existsb] in *.
  repeat (apply orb_false_iff in Hc;
          let H1 := fresh "Hsp" in destruct Hc as [H1 Hc]).
  rewrite Hsp, Hsp0, Hsp1, Hsp2, Hsp3. reflexivity.
Qed.

(** In front of an identifier character that is no digit [next_token]
    hands over to the identifier/keyword recognizer. *)
Lemma next_token_identifier U l l1 c :
  ascii_compatible U ->
  skip_whitespace l = Ok (None, l1) ->
  nth_error (source l1) (pos l1) = Some c ->
  is_identifier_char U c = true -> is_numeric U c = false ->
  next_token U l = some_token (lex_identifier_or_keyword U l1).
Proof.
  intros HU Hsk E Hid Hnum. unfold next_token. rewrite Hsk. cbn [bind].
  assert (Hlt : pos l1 < length (source l1))
    by (apply nth_error_Some; congruence).
  apply Nat.leb_gt in Hlt. rewrite Hlt.
  assert (Hpk : peek l1 0 = Ok c) by (apply peek_Ok; now rewrite Nat.add_0_r).
  rewrite Hpk. cbn [bind].
  pose proof (identifier_char_not_special c HU Hid) as Hs.
  special_facts Hs.
  repeat match goal with
         | Hx : char_eqb c _ = false |- _ => rewrite Hx; clear Hx
         end.
  now rewrite Hid, Hnum.
Qed.

Lemma take_while_id p (s : str) :
  Forall (fun c => p c = true) s -> take_while p s = s.
Proof.
  induction 1 as [|c s Hc _ IH]; simpl; [reflexivity|].
  now rewrite Hc, IH.
Qed.

Lemma firstn_plus (s : str) a b :
  firstn (a + b) s = firstn a s ++ firstn b (skipn a s).
Proof.
  revert s; induction a as [|a IH]; intros [|x s]; simpl;
    try reflexivity.
  - now rewrite firstn_nil.
  - now rewrite IH.
Qed.


(** ** Block comments *)

Lemma pair_at_cursor l a b :
  firstn 2 (skipn (pos l) (source l)) = [a; b] ->
  has_more l 0 = true /\ has_more l 1 = true /\
  peek l 0 = Ok a /\ peek l 1 = Ok b.
Proof.
  intros H.
  assert (Ha : nth_error (source l) (pos l) = Some a).
  { rewrite <- (Nat.add_0_r (pos l)), <- nth_error_skipn.
    destruct (skipn (pos l) (source l)) as [|x [|y s]]; try discriminate.
    simpl in *. congruence. }
  assert (Hb : nth_error (source l) (pos l + 1) = Some b).
  { rewrite <- nth_error_skipn.
    destruct (skipn (pos l) (source l)) as [|x [|y s]]; try discriminate.
    simpl in *. congruence. }
  repeat split.
  - apply has_more_lt. rewrite Nat.add_0_r. apply nth_error_Some. congruence.
  - apply has_more_lt. apply nth_error_Some. congruence.
  - apply peek_Ok. now rewrite Nat.add_0_r.
  - now apply peek_Ok.
Qed.

(** The pass of the skipper at a comment opener. *)
Lemma skip_body_open l v :
  current_comment_type v <> Some SINGLE_LINE ->
  firstn 2 (skipn (pos l) (source l)) = lit "/*" ->
  skip_body (l, v) =
  Ok (Continue (advance l 2,
                {| current_comment_type := Some MULTI_LINE;
                   multi_line_comment_depth :=
                     (multi_line_comment_depth v + 1)%Z;
                   comment_start := Z.of_nat (pos l) |})).
Proof.
  intros Ht H. apply pair_at_cursor in H as (H0 & H1 & P0 & P1).
  unfold skip_body. rewrite H0, P0, H1, P1.
  destruct (current_comment_type v) as [[]|]; try congruence; reflexivity.
Qed.

(** The pass of the skipper at a comment closer. *)
Lemma skip_body_close l v :
  current_comment_type v = Some MULTI_LINE ->
  firstn 2 (skipn (pos l) (source l)) = lit "*/" ->
  skip_body (l, v) =
  Ok (Continue (advance l 2,
                {| current_comment_type :=
                     if (multi_line_comment_depth v - 1 =? 0)%Z
                     then None else Some MULTI_LINE;
                   multi_line_comment_depth :=
                     (multi_line_comment_depth v - 1)%Z;
                   comment_start := comment_start v |})).
Proof.
  intros Ht H. apply pair_at_cursor in H as (H0 & H1 & P0 & P1).
  unfold skip_body. rewrite H0, P0, H1, P1, Ht. reflexivity.
Qed.

(** Inside a block comment a character other than the slash and the star
    is consumed and changes nothing but the cursor and the line count. *)
Lemma skip_body_comment_char l v c :
  current_comment_type v = Some MULTI_LINE ->
  nth_error (source l) (pos l) = Some c ->
  c <> chr "/" -> c <> chr "*" ->
  exists l', skip_body (l, v) = Ok (Continue (l', v)) /\
    source l' = source l /\ pos l' = pos l + 1.
Proof.
  intros Ht E Hs Hx.
  assert (Hm : has_more l 0 = true).
  { apply has_more_lt. rewrite Nat.add_0_r. apply nth_error_Some. congruence. }
  assert (Hpk : peek l 0 = Ok c) by (apply peek_Ok; now rewrite Nat.add_0_r).
  unfold skip_body. rewrite Hm, Hpk, Ht. cbn [negb bind comment_type_eqb].
  destruct (char_eqb c (chr "/")) eqn:E1;
    [apply char_eqb_eq in E1; contradiction|].
  destruct (char_eqb c (chr "*")) eqn:E2;
    [apply char_eqb_eq in E2; contradiction|].
  destruct (char_in c [chr " "; chr "009"]);
    [eexists; split; [reflexivity | split; reflexivity]|].
  destruct (char_in c [chr "010"; chr "013"]);
    [eexists; split; [reflexivity | split; reflexivity]|].
  cbn [bind]. eexists; split; [reflexivity | split; reflexivity].
Qed.

Lemma skipn_behind (s a b : str) n :
  skipn n s = a ++ b -> skipn (n + length a) s = b.
Proof.
  intros H. rewrite Nat.add_comm, <- skipn_skipn, H, skipn_app.
  now rewrite skipn_all, Nat.sub_diag.
Qed.

(** Inside a block comment the skipper runs over a comment body, nested
    comments included, and is at the same depth behind it. *)
Lemma skip_over_body b :
  comment_body b ->
  forall l0 l depth cs rest,
    skip_reach l0 (l, in_block depth cs) ->
    (0 < depth)%Z ->
    skipn (pos l) (source l) = b ++ rest ->
    exists l' cs',
      skip_reach l0 (l', in_block depth cs') /\
      source l' = source l /\ pos l' = pos l + length b.
Proof.
  induction 1 as [|c b Hs Hx Hb IH|b1 b2 Hb1 IH1 Hb2 IH2];
    intros l0 l depth cs rest Hreach Hd Hskip.
  - exists l, cs. simpl. repeat split; auto.
  - assert (E : nth_error (source l) (pos l) = Some c).
    { rewrite <- (Nat.add_0_r (pos l)), <- nth_error_skipn, Hskip.
      reflexivity. }
    destruct (@skip_body_comment_char l (in_block depth cs) c
                eq_refl E Hs Hx) as (l1 & Hpass & Hsrc & Hpos).
    destruct (IH l0 l1 depth cs rest) as (l' & cs' & Hr & Hsrc' & Hpos').
    + eapply reach_pass; eauto.
    + assumption.
    + rewrite Hsrc, Hpos. apply (skipn_behind _ [c] _ _ Hskip).
    + exists l', cs'. simpl. repeat split; auto; try congruence; lia.
  - assert (Hskip0 : skipn (pos l) (source l) =
                      lit "/*" ++ b1 ++ lit "*/" ++ b2 ++ rest)
      by (rewrite Hskip, <- !app_assoc; reflexivity).
    assert (Hopen := @skip_body_open l (in_block depth cs)
                       ltac:(discriminate)
                       ltac:(rewrite Hskip0; reflexivity)).
    destruct (IH1 l0 (advance l 2) (depth + 1)%Z (Z.of_nat (pos l))
                (lit "*/" ++ b2 ++ rest))
      as (l1 & cs1 & Hr1 & Hsrc1 & Hpos1).
    + exact (reach_pass Hreach Hopen).
    + lia.
    + exact (skipn_behind _ (lit "/*") _ _ Hskip0).
    + assert (Hskip1 : skipn (pos l1) (source l1) = lit "*/" ++ b2 ++ rest).
      { rewrite Hsrc1, Hpos1.
        exact (skipn_behind _ b1 _ _
                 (skipn_behind _ (lit "/*") _ _ Hskip0)). }
      assert (Hclose := @skip_body_close l1 (in_block (depth + 1) cs1)
                          eq_refl ltac:(rewrite Hskip1; reflexivity)).
      cbn [in_block multi_line_comment_depth comment_start] in Hclose.
      replace (depth + 1 - 1)%Z with depth in Hclose by lia.
      destruct (depth =? 0)%Z eqn:Hz; [apply Z.eqb_eq in Hz; lia|].
      destruct (IH2 l0 (advance l1 2) depth cs1 rest)
        as (l2 & cs2 & Hr2 & Hsrc2 & Hpos2).
      * exact (reach_pass Hr1 Hclose).
      * assumption.
      * exact (skipn_behind _ (lit "*/") _ _ Hskip1).
      * exists l2, cs2. split; [assumption|].
        split; [cbn [advance source] in *; congruence|].
        rewrite Hpos2. cbn [advance pos]. rewrite Hpos1.
        cbn [advance pos]. rewrite !length_app.
        change (length (lit "/*")) with 2. change (length (lit "*/")) with 2.
        lia.
Qed.

(** Outside any comment the skipper runs over a whole block comment,
    nested comments included, and is outside any comment behind it. *)
Lemma skip_over_comment b l0 l v rest :
  comment_body b ->
  skip_reach l0 (l, v) ->
  current_comment_type v = None ->
  skipn (pos l) (source l) = lit "/*" ++ b ++ lit "*/" ++ rest ->
  exists l' cs',
    skip_reach l0 (l', {| current_comment_type := None;
                          multi_line_comment_depth := 0;
                          comment_start := cs' |}) /\
    source l' = source l /\ pos l' = pos l + length b + 4.
Proof.
  intros Hb Hreach Ht Hskip.
  pose proof (skip_reach_inv Hreach) as (_ & _ & [Hd Hd0] & _).
  simpl in Hd, Hd0.
  assert (Hz : multi_line_comment_depth v = 0%Z).
  { destruct (Z.eq_dec (multi_line_comment_depth v) 0); [assumption|].
    assert (Hp : (0 < multi_line_comment_depth v)%Z) by lia.
    apply Hd in Hp. congruence. }
  assert (Hopen := @skip_body_open l v ltac:(congruence)
                     ltac:(rewrite Hskip; reflexivity)).
  rewrite Hz in Hopen. change (0 + 1)%Z with 1%Z in Hopen.
  destruct (@skip_over_body b Hb l0 (advance l 2) 1%Z (Z.of_nat (pos l))
              (lit "*/" ++ rest))
    as (l1 & cs1 & Hr1 & Hsrc1 & Hpos1).
  - exact (reach_pass Hreach Hopen).
  - lia.
  - exact (skipn_behind _ (lit "/*") _ _ Hskip).
  - assert (Hskip1 : skipn (pos l1) (source l1) = lit "*/" ++ rest).
    { rewrite Hsrc1, Hpos1.
      exact (skipn_behind _ b _ _ (skipn_behind _ (lit "/*") _ _ Hskip)). }
    assert (Hclose := @skip_body_close l1 (in_block 1 cs1)
                        eq_refl ltac:(rewrite Hskip1; reflexivity)).
    exists (advance l1 2), cs1. split; [exact (reach_pass Hr1 Hclose)|].
    cbn [advance source pos] in *. split; [assumption | lia].
Qed.


Lemma plain_comment_body b : plain b -> comment_body b.
Proof.
  induction 1 as [|c b [Hs Hx] _ IH]; [constructor|].
  now apply body_char.
Qed.

(** Inside a block comment the skipper runs over a text without slash and
    star and changes nothing but the cursor and the line count; the
    recorded start of the comment stays. *)
Lemma skip_over_plain b :
  plain b ->
  forall l0 l v r,
    skip_reach l0 (l, v) ->
    current_comment_type v = Some MULTI_LINE ->
    skipn (pos l) (source l) = b ++ r ->
    exists l',
      skip_reach l0 (l', v) /\
      source l' = source l /\ pos l' = pos l + length b.
Proof.
  induction 1 as [|c b [Hs Hx] _ IH]; intros l0 l v r Hreach Ht Hskip.
  - exists l. simpl. repeat split; auto.
  - assert (E : nth_error (source l) (pos l) = Some c).
    { rewrite <- (Nat.add_0_r (pos l)), <- nth_error_skipn, Hskip.
      reflexivity. }
    destruct (@skip_body_comment_char l v c Ht E Hs Hx)
      as (l1 & Hpass & Hsrc & Hpos).
    destruct (IH l0 l1 v r) as (l' & Hr & Hsrc' & Hpos').
    + eapply reach_pass; eauto.
    + assumption.
    + rewrite Hsrc, Hpos. apply (skipn_behind _ [c] _ _ Hskip).
    + exists l'. simpl. repeat split; auto; try congruence; lia.
Qed.

(** A block comment that is left open and holds a block comment: the
    skipper comes to the end of input with the start of the comment inside
    recorded. *)
Lemma skip_over_open_comment l p b1 b2 :
  comment_body p -> plain b1 -> plain b2 ->
  skipn (pos l) (source l) =
    lit "/*" ++ p ++ lit "/*" ++ b1 ++ lit "*/" ++ b2 ->
  exists l3,
    skip_reach l (l3, in_block 1 (Z.of_nat (pos l + 2 + length p))) /\
    source l3 = source l /\ has_more l3 0 = false /\
    skipn (pos l + 2 + length p) (source l) =
      lit "/*" ++ b1 ++ lit "*/" ++ b2.
Proof.
  intros Hp Hb1 Hb2 Hskip.
  assert (Hopen : skip_body (l, skip_init) =
                  Ok (Continue (advance l 2, in_block 1 (Z.of_nat (pos l))))).
  { rewrite skip_body_open;
      [reflexivity | discriminate | rewrite Hskip; reflexivity]. }
  pose proof (reach_pass (reach_start l) Hopen) as Hr0.
  assert (Hskip0 : skipn (pos (advance l 2)) (source (advance l 2)) =
                   p ++ lit "/*" ++ b1 ++ lit "*/" ++ b2)
    by exact (skipn_behind _ (lit "/*") _ _ Hskip).
  destruct (@skip_over_body p Hp l (advance l 2) 1%Z (Z.of_nat (pos l)) _
              Hr0 ltac:(lia) Hskip0) as (l1 & cs1 & Hr1 & Hsrc1 & Hpos1).
  cbn [advance source pos] in Hsrc1, Hpos1.
  assert (Hskip1 : skipn (pos l1) (source l1) =
                   lit "/*" ++ b1 ++ lit "*/" ++ b2).
  { rewrite Hsrc1, Hpos1. exact (skipn_behind _ p _ _ Hskip0). }
  assert (Hopen1 : skip_body (l1, in_block 1 cs1) =
                   Ok (Continue (advance l1 2,
                                 in_block 2 (Z.of_nat (pos l1))))).
  { rewrite skip_body_open;
      [reflexivity | discriminate | rewrite Hskip1; reflexivity]. }
  pose proof (reach_pass Hr1 Hopen1) as Hr2.
  assert (Hskip2 : skipn (pos (advance l1 2)) (source (advance l1 2)) =
                   b1 ++ lit "*/" ++ b2)
    by exact (skipn_behind _ (lit "/*") _ _ Hskip1).
  destruct (@skip_over_plain b1 Hb1 l (advance l1 2) _ _ Hr2 eq_refl Hskip2)
    as (l2 & Hr3 & Hsrc2 & Hpos2).
  assert (Hskip3 : skipn (pos l2) (source l2) = lit "*/" ++ b2).
  { rewrite Hsrc2, Hpos2. exact (skipn_behind _ b1 _ _ Hskip2). }
  assert (Hclose : skip_body (l2, in_block 2 (Z.of_nat (pos l1))) =
                   Ok (Continue (advance l2 2,
                                 in_block 1 (Z.of_nat (pos l1))))).
  { rewrite skip_body_close;
      [reflexivity | reflexivity | rewrite Hskip3; reflexivity]. }
  pose proof (reach_pass Hr3 Hclose) as Hr4.
  assert (Hskip4 : skipn (pos (advance l2 2)) (source (advance l2 2)) =
                   b2 ++ [])
    by (rewrite app_nil_r; exact (skipn_behind _ (lit "*/") _ _ Hskip3)).
  destruct (@skip_over_plain b2 Hb2 l (advance l2 2) _ _ Hr4 eq_refl Hskip4)
    as (l3 & Hr5 & Hsrc3 & Hpos3).
  exists l3. rewrite Hpos1 in Hr5. split; [exact Hr5|].
  cbn [advance source pos] in *.
  split; [congruence|]. split.
  - apply has_more_ge. rewrite Nat.add_0_r.
    assert (Hend : skipn (pos l3) (source l3) = []).
    { rewrite Hsrc3, Hpos3. cbn [advance source pos].
      exact (skipn_behind _ b2 _ _ Hskip4). }
    destruct (Nat.le_gt_cases (length (source l3)) (pos l3)) as [|Hlt];
      [assumption|].
    apply (f_equal (@length _)) in Hend. rewrite length_skipn in Hend.
    simpl in Hend. lia.
  - rewrite <- Hskip1, Hsrc1, Hpos1. reflexivity.
Qed.

(** ** The order of the states of the skipper *)

Lemma skip_reach_from l0 st : skip_reach l0 st <-> skip_from (l0, skip_init) st.
Proof.
  split; induction 1; try constructor; econstructor; eauto.
Qed.

Lemma skip_from_first a b :
  skip_from a b ->
  a = b \/ exists a', skip_body a = Ok (Continue a') /\ skip_from a' b.
Proof.
  induction 1 as [|st st' _ IH Hp]; [now left|]. right.
  destruct IH as [<- | (a' & Ha & Hfrom)].
  - exists st'. split; [assumption | apply from_here].
  - exists a'. split; [assumption | eapply from_pass; eauto].
Qed.

Lemma skip_from_pos a b :
  skip_from a b -> a = b \/ pos (fst a) < pos (fst b).
Proof.
  induction 1 as [|[l v] [l' v'] _ IH Hp]; [now left|]. right.
  apply skip_body_progress in Hp. simpl in *.
  destruct IH as [-> | IH]; simpl; lia.
Qed.

(** The states the skipper goes through form a chain. *)
Lemma skip_from_linear st0 a b :
  skip_from st0 a -> skip_from st0 b -> skip_from a b \/ skip_from b a.
Proof.
  intros Ha; revert b; induction Ha as [|a a' _ IH Hp]; intros b Hb.
  - now left.
  - destruct (IH b Hb) as [Hab | Hba].
    + apply skip_from_first in Hab as [<- | (a1 & Ha1 & Hfrom)].
      * right. eapply from_pass; [apply from_here | exact Hp].
      * left. congruence.
    + right. eapply from_pass; eauto.
Qed.

(** A state of the chain whose cursor is in front of that of [a'] lies at
    or before the state [a] that [a'] comes from. *)
Lemma skip_from_before st0 a a' b :
  skip_from st0 a -> skip_body a = Ok (Continue a') -> skip_from st0 b ->
  pos (fst b) < pos (fst a') ->
  b = a \/ pos (fst b) < pos (fst a).
Proof.
  intros Ha Hp Hb Hlt.
  destruct (skip_from_linear Ha Hb) as [Hab | Hba].
  - apply skip_from_first in Hab as [<- | (a1 & Ha1 & Hfrom)]; [now left|].
    assert (a1 = a') by congruence. subst a1.
    apply skip_from_pos in Hfrom as [<- | Hfrom]; lia.
  - apply skip_from_pos in Hba as [-> | Hba]; auto.
Qed.

(** A pass into the block-comment state is a comment opener, which
    records the cursor, or stays inside the comment and leaves the
    recorded offset alone. *)
Lemma pass_into_block l v l' v' :
  skip_body (l, v) = Ok (Continue (l', v')) ->
  current_comment_type v' = Some MULTI_LINE ->
  (opens (l, v) /\ comment_start v' = Z.of_nat (pos l)) \/
  (current_comment_type v = Some MULTI_LINE /\
   comment_start v' = comment_start v /\ ~ opens (l, v)).
Proof.
  unfold skip_body, opens; intros H Ht.
  assert (Hno : forall c, nth_error (source l) (pos l) = Some c ->
                  c <> chr "/" ->
                  firstn 2 (skipn (pos l) (source l)) <> lit "/*").
  { intros c E Hc Hf. rewrite (skipn_nth_error _ _ E) in Hf.
    apply Hc.
    destruct (skipn (S (pos l)) (source l)); simpl in Hf;
      [discriminate | now injection Hf]. }
  assert (Hno1 : forall c, nth_error (source l) (pos l + 1) = Some c ->
                   c <> chr "*" ->
                   firstn 2 (skipn (pos l) (source l)) <> lit "/*").
  { intros c E Hc Hf.
    destruct (nth_error (source l) (pos l)) as [c0|] eqn:E0.
    - rewrite (skipn_nth_error _ _ E0) in Hf.
      rewrite Nat.add_1_r in E. rewrite (skipn_nth_error _ _ E) in Hf.
      apply Hc. simpl in Hf. now injection Hf.
    - apply nth_error_None in E0. rewrite skipn_all2 in Hf by lia.
      discriminate. }
  assert (Hend : length (source l) <= pos l + 1 ->
                 firstn 2 (skipn (pos l) (source l)) <> lit "/*").
  { intros Hl Hf.
    assert (Hlen : length (firstn 2 (skipn (pos l) (source l))) = 2)
      by (rewrite Hf; reflexivity).
    rewrite length_firstn, length_skipn in Hlen. lia. }
  split_tests_in H; try discriminate; injection H as <- <-;
    cbn [current_comment_type comment_start multi_line_comment_depth
         set_type fst snd pos source advance] in *;
    test_facts; subst; try discriminate; try congruence;
    try (left; split; [split; [assumption | now apply firstn_2_skipn]
                      | reflexivity]);
    right; (split; [assumption|]); (split; [reflexivity|]);
    intros [_ Hf]; revert Hf;
    first [ now apply Hend
          | eapply Hno; [eassumption
                        | first [discriminate | intros ->; discriminate]]
          | eapply Hno1; [eassumption
                         | first [discriminate | intros ->; discriminate]] ].
Qed.

(** Inside a block comment [comment_start] is the offset of the last
    comment opener the skipper passed. *)
Lemma last_opener l0 l v :
  skip_reach l0 (l, v) ->
  current_comment_type v = Some MULTI_LINE ->
  exists l2 v2,
    skip_reach l0 (l2, v2) /\ opens (l2, v2) /\
    comment_start v = Z.of_nat (pos l2) /\ pos l2 < pos l /\
    forall st3, skip_reach l0 st3 -> opens st3 ->
                pos (fst st3) < pos l -> pos (fst st3) <= pos l2.
Proof.
  intros Hreach. remember (l, v) as st eqn:Est. revert l v Est.
  induction Hreach as [|[l1 v1] st' Hr IH Hp]; intros l v Est Ht.
  - injection Est as <- <-. discriminate.
  - subst st'. pose proof Hp as Hprog. apply skip_body_progress in Hprog.
    assert (Hbefore : forall st3, skip_reach l0 st3 ->
              pos (fst st3) < pos l ->
              st3 = (l1, v1) \/ pos (fst st3) < pos l1).
    { intros st3 H3 Hlt.
      exact (skip_from_before (proj1 (skip_reach_from _ _) Hr) Hp
               (proj1 (skip_reach_from _ _) H3) Hlt). }
    destruct (@pass_into_block l1 v1 l v Hp Ht)
      as [[Hop Hcs] | (Ht1 & Hcs & Hnop)].
    + exists l1, v1. repeat split; auto; try apply Hop; try lia.
      intros st3 H3 _ Hlt.
      destruct (Hbefore st3 H3 Hlt) as [-> | Hl]; simpl; lia.
    + destruct (IH l1 v1 eq_refl Ht1) as (l2 & v2 & H2 & Hop2 & Hcs2 & Hlt2 & Hmax).
      exists l2, v2. repeat split; auto; try apply Hop2; try congruence;
        try lia.
      intros st3 H3 Hop3 Hlt.
      destruct (Hbefore st3 H3 Hlt) as [-> | Hl]; [contradiction|].
      now apply Hmax.
Qed.

(** What [next_token] returns when the skipper comes to the end of input
    inside a block comment. *)
Lemma unterminated_message U l l1 v cs :
  skip_reach l (l1, v) ->
  has_more l1 0 = false ->
  current_comment_type v = Some MULTI_LINE ->
  comment_start v = Z.of_nat cs ->
  next_token U l =
  Ok (Some (ErrorToken (skipn cs (source l)) (fst (build_span l1 0))), l1).
Proof.
  intros Hreach Hm Ht Hcs.
  pose proof (skip_reach_inv Hreach) as (Hsrc & _). cbn [fst] in Hsrc.
  unfold next_token. rewrite (skip_whitespace_Break Hreach Hm).
  unfold skip_finish. rewrite Hm.
  apply comment_type_eqb_eq in Ht. rewrite Ht.
  cbv beta iota zeta delta [negb andb build_span bind fst].
  now rewrite advance_0, Hcs, slice_from_nat, Hsrc.
Qed.

(** ** The skipper of the specification *)

Lemma rest_nil l : rest l = [] <-> has_more l 0 = false.
Proof.
  rewrite has_more_ge, Nat.add_0_r. unfold rest. split; intros H.
  - destruct (Nat.le_gt_cases (length (source l)) (pos l)) as [|Hlt];
      [assumption|].
    apply (f_equal (@length _)) in H. rewrite length_skipn in H.
    simpl in H. lia.
  - now apply skipn_all2.
Qed.

Lemma skip_body_refines l v :
  ((current_comment_type v = Some MULTI_LINE <->
    (0 < multi_line_comment_depth v)%Z) /\
   (0 <= multi_line_comment_depth v)%Z) ->
  match skip_body (l, v) with
  | Ok (Continue (l', v')) =>
      spec_skipper (rest l) (spec_state v)
        (Z.to_nat (multi_line_comment_depth v)) =
      spec_skipper (rest l') (spec_state v')
        (Z.to_nat (multi_line_comment_depth v'))
  | Ok (Break _) => rest l = []
  | Ok (Return _) =>
      spec_skipper (rest l) (spec_state v)
        (Z.to_nat (multi_line_comment_depth v)) = TokenStarts
  | _ => False
  end.
Proof.
  intros [Hd H0].
  assert (Hgt : (multi_line_comment_depth v >? 0)%Z =
                comment_type_eqb (current_comment_type v) (Some MULTI_LINE)).
  { destruct (comment_type_eqb _ _) eqn:Ht.
    - apply comment_type_eqb_eq, Hd in Ht. apply Z.gtb_lt. lia.
    - apply comment_type_eqb_neq in Ht.
      destruct (multi_line_comment_depth v >? 0)%Z eqn:Hg; [|reflexivity].
      apply Z.gtb_lt in Hg. elim Ht. apply Hd. lia. }
  destruct (rest l) as [|c s1] eqn:Hrest.
  - apply rest_nil in Hrest. unfold skip_body. rewrite Hrest. reflexivity.
  - pose proof (rest_cons _ Hrest) as E.
    destruct (char_guarded _ E) as [Hm Hpk].
    assert (Hrest1 : rest (advance l 1) = s1)
      by exact (skipn_behind _ [c] _ _ Hrest).
    assert (HrestN : rest {| source := source l; pos := pos l + 1;
                             line_start := pos l + 1; line := line l + 1 |}
                     = s1) by exact Hrest1.
    assert (Hnext : match s1 with
                    | [] => has_more l 1 = false
                    | c1 :: s2 => has_more l 1 = true /\ peek l 1 = Ok c1 /\
                                  rest (advance l 2) = s2
                    end).
    { destruct s1 as [|c1 s2].
      - apply has_more_ge. apply rest_nil in Hrest1.
        apply has_more_ge in Hrest1. cbn [advance source pos] in Hrest1. lia.
      - assert (E1 : nth_error (source l) (pos l + 1) = Some c1)
          by (rewrite <- rest_nth, Hrest; reflexivity).
        split; [apply has_more_lt, nth_error_Some; congruence|].
        split; [now apply peek_Ok|].
        exact (skipn_behind _ [c; c1] _ _ Hrest). }
    unfold skip_body. rewrite Hm, Hpk, Hgt. cbn [negb bind spec_skipper].
    unfold spec_state.
    destruct (char_in c [chr " "; chr "009"]);
      [cbn [current_comment_type]; now rewrite Hrest1|].
    destruct (char_in c [chr "010"; chr "013"]).
    { destruct (current_comment_type v) as [[|]|] eqn:Ht;
        cbv zeta;
        cbn [comment_type_eqb set_type current_comment_type
             multi_line_comment_depth];
        rewrite ?Ht, HrestN; reflexivity. }
    destruct (char_eqb c (chr "/")).
    { destruct (current_comment_type v) as [[|]|] eqn:Ht;
        cbn [comment_type_eqb].
      - rewrite Ht. now rewrite Hrest1.
      - destruct s1 as [|c1 s2].
        + rewrite Hnext, Ht, Hrest1. reflexivity.
        + destruct Hnext as (-> & -> & Hrest2). cbn [bind].
          rewrite andb_false_r.
          destruct (char_eqb c1 (chr "*")).
          * cbn [current_comment_type multi_line_comment_depth].
            rewrite Hrest2. f_equal. lia.
          * rewrite Ht, Hrest1. reflexivity.
      - destruct s1 as [|c1 s2].
        + rewrite Hnext. reflexivity.
        + destruct Hnext as (-> & -> & Hrest2). cbn [bind].
          rewrite andb_true_r.
          destruct (char_eqb c1 (chr "/"));
            [cbn [current_comment_type multi_line_comment_depth];
             now rewrite Hrest2|].
          destruct (char_eqb c1 (chr "*")); [|reflexivity].
          cbn [current_comment_type multi_line_comment_depth].
          rewrite Hrest2. f_equal. lia. }
    destruct (current_comment_type v) as [[|]|] eqn:Ht;
      cbn [comment_type_eqb].
    + rewrite Ht, Hrest1. now destruct s1.
    + assert (Hpos : (0 < multi_line_comment_depth v)%Z)
        by (apply Hd; reflexivity).
      destruct s1 as [|c1 s2].
      * rewrite Hnext. destruct (char_eqb c (chr "*")); cbn [bind];
          rewrite Ht, Hrest1; reflexivity.
      * destruct Hnext as (-> & -> & Hrest2).
        destruct (char_eqb c (chr "*")); cbn [bind andb];
          [|rewrite Ht, Hrest1; reflexivity].
        destruct (char_eqb c1 (chr "/"));
          [|rewrite Ht, Hrest1; reflexivity].
        cbn [current_comment_type multi_line_comment_depth].
        rewrite Hrest2.
        replace (Z.to_nat (multi_line_comment_depth v - 1))
          with (Z.to_nat (multi_line_comment_depth v) - 1) by lia.
        destruct (multi_line_comment_depth v - 1 =? 0)%Z eqn:Hz;
          destruct (Z.to_nat (multi_line_comment_depth v) - 1 =? 0) eqn:Hn;
          try reflexivity;
          [apply Z.eqb_eq in Hz; apply Nat.eqb_neq in Hn; lia
          |apply Z.eqb_neq in Hz; apply Nat.eqb_eq in Hn; lia].
    + reflexivity.
Qed.
(** The loop of [skip_whitespace] follows the skipper of the
    specification on the text behind the cursor. *)
Lemma skip_reach_refines l0 l v :
  skip_reach l0 (l, v) ->
  spec_skipper (rest l0) NONE 0 =
  spec_skipper (rest l) (spec_state v)
    (Z.to_nat (multi_line_comment_depth v)).
Proof.
  intros Hreach. remember (l, v) as st eqn:Est. revert l v Est.
  induction Hreach as [|[l1 v1] st' Hr IH Hp]; intros l v Est.
  - injection Est as <- <-. reflexivity.
  - subst st'. rewrite (IH l1 v1 eq_refl).
    pose proof (skip_reach_inv Hr) as (_ & _ & Hinv & _).
    pose proof (@skip_body_refines l1 v1 Hinv) as Href.
    now rewrite Hp in Href.
Qed.

(** [skip_whitespace] ends as the skipper of the specification does on
    the text behind the cursor. *)
Lemma skip_whitespace_refines l :
  exists e l',
    skip_whitespace l = Ok (e, l') /\
    spec_skipper (rest l) NONE 0 =
    match e with
    | Some _ => CommentUnterminated
    | None => if has_more l' 0 then TokenStarts else InputExhausted
    end.
Proof.
  destruct (skip_whitespace_cases l) as ([l1 v] & Hreach & Hcase).
  pose proof (skip_reach_refines Hreach) as Href.
  pose proof (skip_reach_inv Hreach) as (_ & _ & Hinv & _).
  cbn [fst snd] in *. destruct Hcase as [[Hm Hsk] | [Hb Hsk]].
  - rewrite Hsk, Href. unfold skip_finish. rewrite Hm.
    apply rest_nil in Hm. rewrite Hm. unfold spec_state.
    cbn [negb andb spec_skipper].
    destruct (current_comment_type v) as [[|]|]; cbn [comment_type_eqb];
      cbv beta iota zeta delta [build_span];
      eexists _, _; (split; [reflexivity|]); cbn [advance has_more];
      try reflexivity.
    + apply rest_nil in Hm. now rewrite Hm.
    + apply rest_nil in Hm. now rewrite Hm.
  - rewrite Hsk, Href. exists None, l1. split; [reflexivity|].
    pose proof (@skip_body_refines l1 v Hinv) as Hret. rewrite Hb in Hret.
    apply skip_body_Return in Hb as (_ & -> & _). exact Hret.
Qed.

(** * The properties of the scanner, C1 to C10 *)

(** C1 (fails in the code): on "ab" the first token is [Identifier "ab"]
    with the span from column 2 to column 4 of line 0, which selects
    nothing of the source instead of "ab": the recognizer has moved the
    cursor over the run before [build_span] takes the cursor as the start
    of the span.  The same happens to the keyword "if" and the number
    "12". *)
Theorem span_behind_token (U : UnicodeData) :
  ascii_compatible U ->
  next_token U (for_string (lit "ab")) =
    Ok (Some (Identifier (lit "ab") (mk_span 0 2 0 4)),
        {| source := lit "ab"; pos := 4; line_start := 0; line := 0 |}) /\
  span_text (lit "ab") (mk_span 0 2 0 4) = [] /\
  ~ span_correct (lit "ab") (Identifier (lit "ab") (mk_span 0 2 0 4)) /\
  next_token U (for_string (lit "if")) =
    Ok (Some (Keyword IF (mk_span 0 2 0 4)),
        {| source := lit "if"; pos := 4; line_start := 0; line := 0 |}) /\
  ~ span_correct (lit "if") (Keyword IF (mk_span 0 2 0 4)) /\
  next_token U (for_string (lit "12")) =
    Ok (Some (NumberLiteral (lit "12") 10 (mk_span 0 2 0 4)),
        {| source := lit "12"; pos := 4; line_start := 0; line := 0 |}) /\
  ~ span_correct (lit "12") (NumberLiteral (lit "12") 10 (mk_span 0 2 0 4)).
Proof.
  intros HU. rewrite !(next_token_ascii _ HU) by reflexivity.
  repeat split; try (vm_compute; reflexivity); vm_compute; discriminate.
Qed.

Lemma span_behind_token_witness :
  next_token python_ascii (for_string (lit "ab")) =
    Ok (Some (Identifier (lit "ab") (mk_span 0 2 0 4)),
        {| source := lit "ab"; pos := 4; line_start := 0; line := 0 |}).
Proof.
  exact (proj1 (span_behind_token python_ascii_compatible)).
Defined.

(** C2 (fails in the code): on "ab cd" the calls return [Identifier "ab"]
    and [Identifier "d"]; the first call leaves the cursor at offset 4, so
    the characters " c" at offsets 2 and 3 are looked at by no skipper and
    no recognizer, and the skipped characters and the tokens' source slices
    put together give " c", not the source. *)
Theorem coverage_lost (U : UnicodeData) :
  ascii_compatible U ->
  let src := lit "ab cd" in
  tokens U 3 (for_string src) =
    Ok ([Identifier (lit "ab") (mk_span 0 2 0 4);
         Identifier (lit "d") (mk_span 0 5 0 6)], true) /\
  after_calls U 1 (for_string src) =
    Ok {| source := src; pos := 4; line_start := 0; line := 0 |} /\
  coverage U 3 (for_string src) = Ok (lit " c") /\
  lit " c" <> src.
Proof.
  intros HU src.
  rewrite (tokens_ascii _ _ HU), (coverage_ascii _ _ HU) by reflexivity.
  unfold after_calls. rewrite (next_token_ascii _ HU) by reflexivity.
  repeat split; try (vm_compute; reflexivity). vm_compute; discriminate.
Qed.

Lemma coverage_lost_witness :
  coverage python_ascii 3 (for_string (lit "ab cd")) = Ok (lit " c").
Proof.
  exact (proj1 (proj2 (proj2 (coverage_lost python_ascii_compatible)))).
Defined.

(** C3 (fails in the code): on "007" the only token is the [ErrorToken]
    with message "007", but its span runs from column 3 to column 6 of
    line 0, not from column 0 to column 3. *)
Theorem leading_zero_span (U : UnicodeData) :
  ascii_compatible U ->
  tokens U 2 (for_string (lit "007")) =
  Ok ([ErrorToken (lit "007") (mk_span 0 3 0 6)], true).
Proof.
  intros HU. rewrite (tokens_ascii _ _ HU) by reflexivity.
  vm_compute; reflexivity.
Qed.

Lemma leading_zero_span_witness :
  tokens python_ascii 2 (for_string (lit "007")) =
  Ok ([ErrorToken (lit "007") (mk_span 0 3 0 6)], true).
Proof.
  exact (leading_zero_span python_ascii_compatible).
Defined.

(** C4 (fails in the code): on "0x1A3" the only token is
    [NumberLiteral "0x1A3"] of base 16, but its span runs from column 5 to
    column 10 of line 0, not from column 0 to column 5; on "0x" the
    [ErrorToken] with message "0x" has the span from column 2 to
    column 4. *)
Theorem hex_literal_span (U : UnicodeData) :
  ascii_compatible U ->
  tokens U 2 (for_string (lit "0x1A3")) =
    Ok ([NumberLiteral (lit "0x1A3") 16 (mk_span 0 5 0 10)], true) /\
  tokens U 2 (for_string (lit "0x")) =
    Ok ([ErrorToken (lit "0x") (mk_span 0 2 0 4)], true).
Proof.
  intros HU. rewrite !(tokens_ascii _ _ HU) by reflexivity.
  split; vm_compute; reflexivity.
Qed.

Lemma hex_literal_span_witness :
  tokens python_ascii 2 (for_string (lit "0x1A3")) =
  Ok ([NumberLiteral (lit "0x1A3") 16 (mk_span 0 5 0 10)], true).
Proof.
  exact (proj1 (hex_literal_span python_ascii_compatible)).
Defined.

(** C5: the run of identifier characters (letters, digits, underscore) at
    the cursor is maximal, and the identifier/keyword recognizer returns a
    [Keyword] of kind [k] if and only if the run is the spelling of [k]
    (one of "if", "else", "while"); every other run is returned as an
    [Identifier] whose name is the run.  That token is what [next_token]
    returns when the skipper stops in front of a run that begins with a
    character that is no digit. *)
Theorem keyword_identifier_partition (U : UnicodeData) (l : Lexer) :
  let run := run_at (is_identifier_char U) l in
  Forall (fun c => is_identifier_char U c = true) run /\
  match skipn (pos l + length run) (source l) with
  | [] => True
  | c :: _ => is_identifier_char U c = false
  end /\
  exists tok l',
    lex_identifier_or_keyword U l = Ok (tok, l') /\
    (forall k, (exists sp, tok = Keyword k sp) <-> run = keyword k) /\
    ((forall k, run <> keyword k) -> exists sp, tok = Identifier run sp) /\
    (keyword IF = lit "if" /\ keyword ELSE = lit "else" /\
     keyword WHILE = lit "while") /\
    (forall l0 c,
       ascii_compatible U ->
       skip_whitespace l0 = Ok (None, l) ->
       nth_error (source l) (pos l) = Some c ->
       is_identifier_char U c = true ->
       is_numeric U c = false ->
       next_token U l0 = Ok (Some tok, l')).
Proof.
  intros run. split; [apply take_while_all|]. split.
  - rewrite Nat.add_comm, <- skipn_skipn. apply take_while_maximal.
  - assert (Hdispatch : forall tok l',
      lex_identifier_or_keyword U l = Ok (tok, l') ->
      forall l0 c,
        ascii_compatible U ->
        skip_whitespace l0 = Ok (None, l) ->
        nth_error (source l) (pos l) = Some c ->
        is_identifier_char U c = true ->
        is_numeric U c = false ->
        next_token U l0 = Ok (Some tok, l')).
    { intros tok l' Hlex l0 c HU Hsk E Hid Hnum.
      rewrite (@next_token_identifier U l0 l c HU Hsk E Hid Hnum), Hlex.
      reflexivity. }
    rewrite lex_identifier_or_keyword_run in *. fold run in Hdispatch |- *.
    destruct (find_keyword KeywordType_members run) as [k0|] eqn:Hf;
      (eexists _, _; split; [reflexivity|]).
    + apply find_keyword_spelling in Hf.
      split; [|split; [|split; [auto|now apply Hdispatch]]].
      * intros k; split.
        -- intros [sp [= <-]]. exact Hf.
        -- intros Hk. rewrite Hf in Hk.
           assert (k0 = k) by (destruct k0, k; try reflexivity; discriminate).
           subst k0. eauto.
      * intros Hno. destruct (Hno k0 Hf).
    + split; [|split; [|split; [auto|now apply Hdispatch]]].
      * intros k; split.
        -- intros [sp [=]].
        -- intros Hk. apply find_keyword_spelling in Hk. congruence.
      * eauto.
Qed.

Lemma keyword_identifier_partition_witness :
  exists tok l',
    lex_identifier_or_keyword python_ascii (for_string (lit "while(")) =
    Ok (tok, l') /\
    (forall k, (exists sp, tok = Keyword k sp) <-> lit "while" = keyword k).
Proof.
  destruct (keyword_identifier_partition python_ascii
              (for_string (lit "while(")))
    as (_ & _ & tok & l' & Hlex & Hkw & _).
  exists tok, l'. split; [exact Hlex | exact Hkw].
Defined.

(** C6: block comments nest.  Outside a line comment every "/*" at the
    cursor moves the skipper into the block-comment state, raises the depth
    by one and consumes two characters, also inside a block comment; inside
    a block comment every "*/" at the cursor consumes two characters and
    lowers the depth by one; in every state the skipper goes through it is
    in the block-comment state exactly when the depth is positive.  On a
    block comment with comments nested in it to any depth, such as
    "/* /* x */ */", followed by an identifier, the whole comment is
    skipped and the first token is that identifier. *)
Theorem block_comments_nest :
  (forall l v,
     current_comment_type v <> Some SINGLE_LINE ->
     firstn 2 (skipn (pos l) (source l)) = lit "/*" ->
     skip_body (l, v) =
     Ok (Continue (advance l 2,
                   {| current_comment_type := Some MULTI_LINE;
                      multi_line_comment_depth :=
                        (multi_line_comment_depth v + 1)%Z;
                      comment_start := Z.of_nat (pos l) |}))) /\
  (forall l v,
     current_comment_type v = Some MULTI_LINE ->
     firstn 2 (skipn (pos l) (source l)) = lit "*/" ->
     skip_body (l, v) =
     Ok (Continue (advance l 2,
                   {| current_comment_type :=
                        if (multi_line_comment_depth v - 1 =? 0)%Z
                        then None else Some MULTI_LINE;
                      multi_line_comment_depth :=
                        (multi_line_comment_depth v - 1)%Z;
                      comment_start := comment_start v |}))) /\
  (forall l st,
     skip_reach l st ->
     (current_comment_type (snd st) = Some MULTI_LINE <->
      (0 < multi_line_comment_depth (snd st))%Z)) /\
  (forall U b id,
     ascii_compatible U ->
     comment_body b ->
     id <> [] ->
     Forall (fun c => is_identifier_char U c = true) id ->
     is_numeric U (hd 0%N id) = false ->
     (forall k, id <> keyword k) ->
     exists sp l',
       next_token U (for_string (lit "/*" ++ b ++ lit "*/" ++ id)) =
       Ok (Some (Identifier id sp), l')) /\
  comment_body (lit " /* x */ ").
Proof.
  split; [exact skip_body_open|]. split; [exact skip_body_close|].
  split; [|split].
  - intros l st Hreach. apply skip_reach_inv in Hreach. apply Hreach.
  - intros U b [|c rest] HU Hb Hne Hall Hnum Hkw; [congruence|]. clear Hne.
    simpl in Hnum.
    pose proof (Forall_inv Hall) as Hc.
    pose proof (identifier_char_not_special c HU Hc) as Hs.
    set (l0 := for_string (lit "/*" ++ b ++ lit "*/" ++ c :: rest)).
    destruct (@skip_over_comment b l0 l0 skip_init (c :: rest) Hb
                (reach_start l0) eq_refl eq_refl)
      as (l1 & cs1 & Hreach & Hsrc & Hpos).
    assert (Hskip : skipn (pos l1) (source l1) = c :: rest).
    { rewrite Hsrc, Hpos.
      replace (pos l0 + length b + 4) with
        (length (lit "/*" ++ b ++ lit "*/")).
      - unfold l0, for_string. cbn [source].
        replace (lit "/*" ++ b ++ lit "*/" ++ c :: rest)
          with ((lit "/*" ++ b ++ lit "*/") ++ c :: rest)
          by (rewrite <- !app_assoc; reflexivity).
        now rewrite skipn_app, skipn_all, Nat.sub_diag.
      - rewrite !length_app. unfold l0. simpl. lia. }
    assert (E : nth_error (source l1) (pos l1) = Some c).
    { rewrite <- (Nat.add_0_r (pos l1)), <- nth_error_skipn, Hskip.
      reflexivity. }
    assert (Hsk : skip_whitespace l0 = Ok (None, l1)).
    { apply (skip_whitespace_Return Hreach).
      apply skip_body_at_token with (c := c); [reflexivity | exact E |].
      special_facts Hs. unfold char_in. cbn [existsb].
      now rewrite Hsp, Hsp0, Hsp1, Hsp2, Hsp3. }
    rewrite (@next_token_identifier U l0 _ c HU Hsk E Hc Hnum).
    rewrite lex_identifier_or_keyword_run.
    replace (run_at (is_identifier_char U) l1) with (c :: rest)
      by (unfold run_at; rewrite Hskip; symmetry;
          apply (take_while_id _ Hall)).
    destruct (find_keyword KeywordType_members (c :: rest)) as [k|] eqn:Hf.
    + apply find_keyword_spelling in Hf. destruct (Hkw k Hf).
    + eexists _, _. reflexivity.
  - apply body_char; [discriminate | discriminate |].
    apply (@body_nested (lit " x ") (lit " ")).
    + repeat (apply body_char; [discriminate | discriminate |]).
      apply body_nil.
    + apply body_char; [discriminate | discriminate | apply body_nil].
Qed.

Lemma block_comments_nest_witness :
  exists sp l',
    next_token python_ascii (for_string (lit "/* /* x */ */foo")) =
    Ok (Some (Identifier (lit "foo") sp), l').
Proof.
  apply (proj1 (proj2 (proj2 (proj2 block_comments_nest)))
           python_ascii (lit " /* x */ ") (lit "foo")).
  - exact python_ascii_compatible.
  - exact (proj2 (proj2 (proj2 (proj2 block_comments_nest)))).
  - discriminate.
  - repeat constructor.
  - reflexivity.
  - intros []; discriminate.
Defined.

(** C7 (fails in the code): when the skipper reaches the end of input
    while the nesting depth of block comments is still positive,
    [next_token] returns an [ErrorToken] whose span has zero width at the
    end of input, where the cursor is left, and whose message is the
    source from the comment opener "/*" that the skipper passed last.
    That is the opener of the comment left open when this comment holds
    no other comment: the message is then the text from its start, as on
    "/* unterminated".  When the comment left open holds a comment, the
    message starts at the comment inside, which is closed, and not at the
    start of the comment left open: on "/* a /* b */ c" the message is
    "/* b */ c". *)
Theorem unterminated_block_comment (U : UnicodeData) :
  (forall l l1 v,
     skip_reach l (l1, v) ->
     has_more l1 0 = false ->
     (0 < multi_line_comment_depth v)%Z ->
     exists cs,
       comment_start v = Z.of_nat cs /\
       (exists l2 v2,
          skip_reach l (l2, v2) /\ opens (l2, v2) /\ pos l2 = cs) /\
       (forall st, skip_reach l st -> opens st -> pos (fst st) <= cs) /\
       pos l <= cs /\ cs + 2 <= length (source l) /\
       firstn 2 (skipn cs (source l)) = lit "/*" /\
       pos l1 = length (source l) /\
       let col := (Z.of_nat (length (source l)) - Z.of_nat (line_start l1))%Z in
       next_token U l =
       Ok (Some (ErrorToken (skipn cs (source l))
                   {| start_line := Z.of_nat (line l1); start_col := col;
                      end_line := Z.of_nat (line l1); end_col := col |}),
           l1)) /\
  tokens U 2 (for_string (lit "/* unterminated")) =
  Ok ([ErrorToken (lit "/* unterminated")
         {| start_line := 0; start_col := 15;
            end_line := 0; end_col := 15 |}], true) /\
  (forall l b,
     plain b ->
     rest l = lit "/*" ++ b ->
     exists l',
       next_token U l =
       Ok (Some (ErrorToken (rest l) (fst (build_span l' 0))), l') /\
       pos l' = length (source l)) /\
  (forall l p b1 b2,
     comment_body p -> plain b1 -> plain b2 ->
     rest l = lit "/*" ++ p ++ lit "/*" ++ b1 ++ lit "*/" ++ b2 ->
     exists l',
       next_token U l =
       Ok (Some (ErrorToken (lit "/*" ++ b1 ++ lit "*/" ++ b2)
                   (fst (build_span l' 0))), l') /\
       pos l' = length (source l) /\
       lit "/*" ++ b1 ++ lit "*/" ++ b2 <> rest l).
Proof.
  assert (Hend : forall l l1 v,
            skip_reach l (l1, v) -> has_more l1 0 = false ->
            current_comment_type v = Some MULTI_LINE ->
            pos l1 = length (source l)).
  { intros l l1 v Hreach Hm Ht.
    pose proof (skip_reach_inv Hreach) as (Hsrc & Hpos & _ & Hlen & _).
    simpl in *. apply has_more_ge in Hm.
    destruct Hlen as [Hl | Hl];
      [injection Hl as -> ->; discriminate|].
    rewrite <- Hsrc. lia. }
  split; [|split; [vm_compute; reflexivity|split]].
  - intros l l1 v Hreach Hm Hdepth.
    pose proof (skip_reach_inv Hreach) as (Hsrc & Hpos & [Hd _] & Hlen & _).
    simpl in *. apply Hd in Hdepth.
    destruct (last_opener Hreach Hdepth)
      as (l2 & v2 & H2 & Hop & Hstart & Hlt & Hmax).
    pose proof (skip_reach_inv H2) as (Hsrc2 & Hpos2 & _).
    simpl in *.
    pose proof (Hend _ _ _ Hreach Hm Hdepth) as Hend1.
    assert (Hin : forall st, skip_reach l st -> opens st ->
                             pos (fst st) + 2 <= length (source l)).
    { intros [l3 v3] H3 [_ Hf]. cbn [fst snd] in *.
      pose proof (skip_reach_inv H3) as (Hsrc3 & _). cbn [fst] in Hsrc3.
      assert (Hl3 : length (firstn 2 (skipn (pos l3) (source l3))) = 2)
        by (rewrite Hf; reflexivity).
      rewrite length_firstn, length_skipn, Hsrc3 in Hl3. lia. }
    exists (pos l2). split; [assumption|].
    split; [exists l2, v2; auto|].
    split; [intros st H3 Hop3; apply Hmax; auto;
            specialize (Hin st H3 Hop3); lia|].
    split; [assumption|]. split; [apply (Hin _ H2 Hop)|].
    split; [destruct Hop as [_ Hf]; cbn [fst] in Hf; now rewrite <- Hsrc2|].
    split; [assumption|].
    rewrite (@unterminated_message U l l1 v (pos l2) Hreach Hm Hdepth Hstart).
    cbv beta iota zeta delta [build_span fst].
    now rewrite Z.add_0_r, Hend1.
  - intros l b Hb Hrest. unfold rest in *.
    assert (Hopen : skip_body (l, skip_init) =
                    Ok (Continue (advance l 2,
                                  in_block 1 (Z.of_nat (pos l))))).
    { rewrite skip_body_open;
        [reflexivity | discriminate | rewrite Hrest; reflexivity]. }
    pose proof (reach_pass (reach_start l) Hopen) as Hr0.
    assert (Hskip0 : skipn (pos (advance l 2)) (source (advance l 2)) =
                     b ++ [])
      by (rewrite app_nil_r; exact (skipn_behind _ (lit "/*") _ _ Hrest)).
    destruct (@skip_over_plain b Hb l (advance l 2) _ _ Hr0 eq_refl Hskip0)
      as (l1 & Hr1 & Hsrc1 & Hpos1).
    assert (Hm : has_more l1 0 = false).
    { apply has_more_ge. rewrite Nat.add_0_r.
      assert (Hnil : skipn (pos l1) (source l1) = []).
      { rewrite Hsrc1, Hpos1. exact (skipn_behind _ b _ _ Hskip0). }
      destruct (Nat.le_gt_cases (length (source l1)) (pos l1)) as [|Hlt];
        [assumption|].
      apply (f_equal (@length _)) in Hnil. rewrite length_skipn in Hnil.
      simpl in Hnil. lia. }
    exists l1. split.
    + exact (@unterminated_message U l l1 _ (pos l) Hr1 Hm eq_refl eq_refl).
    + exact (Hend _ _ _ Hr1 Hm eq_refl).
  - intros l p b1 b2 Hp Hb1 Hb2 Hrest. unfold rest in *.
    destruct (skip_over_open_comment l Hp Hb1 Hb2 Hrest)
      as (l3 & Hr & Hsrc & Hm & Hmsg).
    exists l3. split; [|split].
    + rewrite <- Hmsg.
      exact (@unterminated_message U l l3 _ _ Hr Hm eq_refl eq_refl).
    + exact (Hend _ _ _ Hr Hm eq_refl).
    + rewrite Hrest. intros Heq. apply (f_equal (@length _)) in Heq.
      repeat first [ rewrite length_app in Heq
                   | progress cbn [lit app length] in Heq ].
      simpl in Heq. lia.
Qed.

Lemma unterminated_block_comment_witness :
  exists l',
    next_token python_ascii (for_string (lit "/* a /* b */ c")) =
    Ok (Some (ErrorToken (lit "/* b */ c") (fst (build_span l' 0))), l') /\
    pos l' = 14 /\
    lit "/* b */ c" <> lit "/* a /* b */ c".
Proof.
  apply (proj2 (proj2 (proj2 (unterminated_block_comment python_ascii)))
           (for_string (lit "/* a /* b */ c"))
           (lit " a ") (lit " b ") (lit " c")).
  - repeat (apply body_char; [discriminate | discriminate |]).
    apply body_nil.
  - repeat (constructor; [split; discriminate|]). constructor.
  - repeat (constructor; [split; discriminate|]). constructor.
  - reflexivity.
Defined.

(** C8 (fails in the code): [next_token] returns the end-of-stream
    sentinel exactly when the text behind the cursor holds no further
    token, that is, when the skipper of the specification exhausts it; and
    exhaustion is terminal: after a call that returned the sentinel, any
    number of further calls leave the scanner as it is and the next call
    returns the sentinel again, no error and no token.  But the cursor is
    not left where the text of the last token ends (C1), so the sentinel
    comes while input is left that holds a token: on "ab;" the first call
    returns the identifier "ab" and the second the sentinel; the ";" left
    behind "ab" is a token and is never returned. *)
Theorem exhaustion_terminal (U : UnicodeData) :
  (forall l,
     (exists l', next_token U l = Ok (None, l')) <->
     no_further_token (rest l)) /\
  (forall l l',
     next_token U l = Ok (None, l') ->
     forall n, after_calls U n l' = Ok l' /\
               next_token U l' = Ok (None, l')) /\
  (ascii_compatible U ->
   let src := lit "ab;" in
   let at_pos n := {| source := src; pos := n; line_start := 0; line := 0 |} in
   next_token U (for_string src) =
     Ok (Some (Identifier (lit "ab") (mk_span 0 2 0 4)), at_pos 4) /\
   next_token U (at_pos 4) = Ok (None, at_pos 4) /\
   tokens U 2 (for_string src) =
     Ok ([Identifier (lit "ab") (mk_span 0 2 0 4)], true) /\
   src = lit "ab" ++ lit ";" /\
   ~ no_further_token (lit ";") /\
   next_token U (at_pos 2) =
     Ok (Some (Separator SEMICOLON (mk_span 0 2 0 3)), at_pos 3)).
Proof.
  split; [|split].
  - intros l.
    destruct (skip_whitespace_refines l) as (e & l1 & Hsk & Href).
    unfold no_further_token. rewrite Href. split.
    + intros (l' & H).
      destruct (next_token_ok U l) as (r & l2 & H2 & Hsrc & _ & Hr).
      rewrite H in H2. injection H2 as <- <-. destruct Hr as [Hlen Hsk'].
      rewrite Hsk in Hsk'. injection Hsk' as -> ->.
      assert (Hm : has_more l' 0 = false)
        by (apply has_more_ge; rewrite Hsrc; lia).
      now rewrite Hm.
    + intros Hspec. destruct e as [t|]; [discriminate|].
      destruct (has_more l1 0) eqn:Hm; [discriminate|].
      exists l1. unfold next_token. rewrite Hsk. cbn [bind].
      apply has_more_ge in Hm. rewrite Nat.add_0_r in Hm.
      apply Nat.leb_le in Hm. now rewrite Hm.
  - intros l l' H n.
    destruct (next_token_ok U l) as (r & l1 & H1 & Hs & _ & Hr).
    rewrite H in H1. injection H1 as <- <-. destruct Hr as [Hlen _].
    rewrite <- Hs in Hlen.
    split; [now apply after_calls_at_end | now apply next_token_at_end].
  - intros HU src at_pos.
    rewrite (tokens_ascii _ _ HU) by reflexivity.
    rewrite !(next_token_ascii _ HU) by reflexivity.
    repeat split; try (vm_compute; reflexivity).
    unfold no_further_token. vm_compute. discriminate.
Qed.

Lemma exhaustion_terminal_witness :
  tokens python_ascii 2 (for_string (lit "ab;")) =
    Ok ([Identifier (lit "ab") (mk_span 0 2 0 4)], true) /\
  ~ no_further_token (lit ";").
Proof.
  destruct (proj2 (proj2 (exhaustion_terminal python_ascii))
              python_ascii_compatible) as (_ & _ & Htokens & _ & Hleft & _).
  split; assumption.
Defined.

(** C9: from every scanner state a call of [next_token] comes back
    within the fuel of its loops; every pass of the skipper loop either
    moves the cursor forward inside the source or leaves the loop; a call
    that returns a token moves the cursor forward; and calling
    [next_token] until the sentinel takes no more calls than there are
    characters left, plus the one that returns the sentinel. *)
Theorem next_token_terminates (U : UnicodeData) (l : Lexer) :
  next_token U l <> Diverge /\
  (forall st c,
     skip_body st = Ok c ->
     match c with
     | Continue st' =>
         pos (fst st) < pos (fst st') <= length (source (fst st))
     | Break _ | Return _ => True
     end) /\
  (forall t l', next_token U l = Ok (Some t, l') -> pos l < pos l') /\
  (exists ts,
     tokens U (S (length (source l) - pos l)) l = Ok (ts, true) /\
     length ts <= length (source l) - pos l).
Proof.
  split; [|split; [|split]].
  - destruct (next_token_ok U l) as (r & l' & -> & _). discriminate.
  - intros [l1 v1] [[l2 v2]| |] H; auto. simpl.
    apply skip_body_progress in H. lia.
  - intros t l' H.
    destruct (next_token_ok U l) as (r & l1 & H1 & _ & _ & Hr).
    rewrite H in H1. injection H1 as <- <-. tauto.
  - apply tokens_reach_sentinel. lia.
Qed.

(** C10: [peek] fails exactly when asked for a character outside the
    source; [next_token] never does so: from every scanner state it is a
    total function that returns a token or the sentinel, and so is every
    sequence of calls. *)
Theorem next_token_total (U : UnicodeData) (l : Lexer) :
  (forall l0 k, peek l0 k = IndexError <-> has_more l0 k = false) /\
  (exists r l', next_token U l = Ok (r, l')) /\
  next_token U l <> IndexError /\
  (forall n, exists l', after_calls U n l = Ok l') /\
  (forall n, exists ts, tokens U n l = Ok ts).
Proof.
  split; [exact peek_out_of_range|].
  destruct (next_token_ok U l) as (r & l' & H & _).
  split; [eauto|]. split; [rewrite H; discriminate|]. split.
  - intros n. destruct (after_calls_ok U n l) as (l2 & H2 & _); eauto.
  - intros n. apply tokens_ok.
Qed.

(** * Further properties, X1 to X12 *)

(** X1: what [lex_number] returns for the character [c] at the cursor, apart
    from the span: behind the prefix "0x" or "0X" the literal of base 16
    made of the prefix and the run of hex digits, or the [ErrorToken] with
    the two characters of the prefix when the run is empty; otherwise the
    run of digits at the cursor as a literal of base 10, or as an
    [ErrorToken] when it has more than one digit and starts with "0". *)
Theorem lex_number_classification (U : UnicodeData) (l : Lexer) (c : char) :
  nth_error (source l) (pos l) = Some c ->
  let hex_prefix :=
    char_eqb c (chr "0") &&
    match nth_error (source l) (pos l + 1) with
    | Some c1 => char_in c1 [chr "x"; chr "X"]
    | None => false
    end in
  let prefix := firstn 2 (skipn (pos l) (source l)) in
  let digits := run_at (is_hex U) (advance l 2) in
  let run := run_at (is_numeric U) l in
  exists sp l',
    lex_number U l =
    Ok (if hex_prefix then
          if length digits =? 0 then ErrorToken prefix sp
          else NumberLiteral (prefix ++ digits) 16 sp
        else
          if char_eqb c (chr "0") && (1 <? length run)
          then ErrorToken run sp
          else NumberLiteral run 10 sp,
        l').
Proof.
  intros E hex_prefix prefix digits run.
  assert (Hpk : peek l 0 = Ok c) by (apply peek_Ok; now rewrite Nat.add_0_r).
  assert (Hdec : hex_prefix = false ->
    exists sp l',
      (l1 <- scan_while (is_numeric U) l ;;
       first <- match nth_error (source l1) (pos l) with
                | Some c => Ok c
                | None => IndexError
                end ;;
       if char_eqb first (chr "0") && (1 <? pos l1 - pos l)
       then let '(sp, l2) := build_span l1 (pos l1 - pos l) in
            Ok (ErrorToken (slice (source l1) (pos l) (pos l1)) sp, l2)
       else let '(sp, l2) := build_span l1 (pos l1 - pos l) in
            Ok (NumberLiteral (slice (source l1) (pos l) (pos l1)) 10 sp, l2))
      = Ok (if hex_prefix then
              if length digits =? 0 then ErrorToken prefix sp
              else NumberLiteral (prefix ++ digits) 16 sp
            else
              if char_eqb c (chr "0") && (1 <? length run)
              then ErrorToken run sp
              else NumberLiteral run 10 sp,
            l')).
  { intros ->. rewrite scan_while_run. cbn [bind advance source pos].
    rewrite E. cbn [bind]. rewrite slice_run. fold run.
    replace (pos l + length run - pos l) with (length run) by lia.
    destruct (char_eqb c (chr "0") && (1 <? length run));
      eexists _, _; reflexivity. }
  unfold lex_number, is_hex_prefix. rewrite Hpk. cbn [bind].
  unfold hex_prefix in *. clear hex_prefix.
  destruct (char_eqb c (chr "0")); [|apply Hdec; reflexivity].
  destruct (has_more l 1) eqn:Hm.
  - destruct (peek_guarded l 1 Hm) as (c1 & -> & E1). cbn [bind].
    rewrite E1 in *. cbn [andb] in *.
    destruct (char_in c1 [chr "x"; chr "X"]); [|apply Hdec; reflexivity].
    rewrite scan_while_run. cbn [bind advance source pos]. fold digits.
    assert (Hsl : slice (source l) (pos l) (pos l + 2 + length digits) =
                  prefix ++ digits).
    { unfold slice, prefix, digits, run_at. cbn [advance source pos].
      replace (pos l + 2 + _ - pos l) with
        (2 + length (take_while (is_hex U) (skipn (pos l + 2) (source l))))
        by lia.
      rewrite firstn_plus, skipn_skipn, (Nat.add_comm 2 (pos l)).
      now rewrite take_while_firstn. }
    rewrite Hsl.
    replace (pos l + 2 + length digits - pos l =? 2)
      with (length digits =? 0).
    + destruct (length digits =? 0) eqn:Hz.
      * apply Nat.eqb_eq in Hz. apply length_zero_iff_nil in Hz.
        rewrite Hz, app_nil_r. eexists _, _; reflexivity.
      * eexists _, _; reflexivity.
    + destruct (length digits); simpl;
        [symmetry; apply Nat.eqb_eq; lia | symmetry; apply Nat.eqb_neq; lia].
  - apply has_more_ge in Hm.
    assert (E1 : nth_error (source l) (pos l + 1) = None)
      by (apply nth_error_None; lia).
    rewrite E1 in *. apply Hdec; reflexivity.
Qed.

Lemma lex_number_classification_witness :
  exists sp l',
    lex_number python_ascii (for_string (lit "0x1A3;")) =
    Ok (NumberLiteral (lit "0x1A3") 16 sp, l').
Proof.
  exact (@lex_number_classification python_ascii
           (for_string (lit "0x1A3;")) (chr "0") eq_refl).
Defined.

(** X2: where the skipper stops in front of one of "-", "+", "*", "/", "%",
    [next_token] returns the compound assignment operator when "=" follows
    at once, with a span of width 2 that starts at the cursor, and the
    single operator otherwise, with a span of width 1; the cursor moves
    over exactly the characters of the operator. *)
Theorem compound_operator_greedy (U : UnicodeData) (l l1 : Lexer) (c : char)
    (single assign : OperatorType) :
  skip_whitespace l = Ok (None, l1) ->
  nth_error (source l1) (pos l1) = Some c ->
  operator_pair c = Some (single, assign) ->
  let followed :=
    match nth_error (source l1) (pos l1 + 1) with
    | Some c1 => char_eqb c1 (chr "=")
    | None => false
    end in
  let width := if followed then 2 else 1 in
  let col := (Z.of_nat (pos l1) - Z.of_nat (line_start l1))%Z in
  next_token U l =
  Ok (Some (Operator (if followed then assign else single)
              (mk_span (Z.of_nat (line l1)) col
                       (Z.of_nat (line l1)) (col + Z.of_nat width))),
      advance l1 width).
Proof.
  intros Hsk E Hop followed width col.
  assert (Hlt : pos l1 < length (source l1))
    by (apply nth_error_Some; congruence).
  assert (Hpk : peek l1 0 = Ok c) by (apply peek_Ok; now rewrite Nat.add_0_r).
  assert (Hsoa : forall a b,
    some_token (single_or_assign l1 a b) =
    Ok (Some (Operator (if followed then b else a)
                (mk_span (Z.of_nat (line l1)) col
                         (Z.of_nat (line l1)) (col + Z.of_nat width))),
        advance l1 width)).
  { intros a b. unfold single_or_assign, width, col, followed.
    destruct (has_more l1 1) eqn:Hm.
    - destruct (peek_guarded l1 1 Hm) as (c1 & -> & ->). cbn [bind].
      destruct (char_eqb c1 (chr "=")); reflexivity.
    - apply has_more_ge in Hm.
      assert (E1 : nth_error (source l1) (pos l1 + 1) = None)
        by (apply nth_error_None; lia).
      rewrite E1. reflexivity. }
  unfold next_token. rewrite Hsk. cbn [bind].
  apply Nat.leb_gt in Hlt. rewrite Hlt, Hpk. cbn [bind].
  unfold operator_pair in Hop.
  repeat match type of Hop with
         | (if char_eqb c ?x then _ else _) = _ =>
             destruct (char_eqb c x) eqn:Hc;
             [apply char_eqb_eq in Hc; subst c; injection Hop as <- <-;
              apply Hsoa | clear Hc]
         end.
  discriminate.
Qed.

Lemma compound_operator_greedy_witness :
  next_token python_ascii (for_string (lit "-=")) =
  Ok (Some (Operator ASSIGN_MINUS (mk_span 0 0 0 2)),
      {| source := lit "-="; pos := 2; line_start := 0; line := 0 |}).
Proof.
  exact (@compound_operator_greedy python_ascii (for_string (lit "-="))
           (for_string (lit "-=")) (chr "-") MINUS ASSIGN_MINUS
           eq_refl eq_refl eq_refl).
Defined.

(** ** Lines *)

Lemma slice_1 (s : str) i c :
  nth_error s i = Some c -> slice s i (i + 1) = [c].
Proof.
  intros E. unfold slice. replace (i + 1 - i) with 1 by lia.
  now rewrite (skipn_nth_error _ _ E).
Qed.

Lemma slice_2 (s : str) i a b :
  nth_error s i = Some a -> nth_error s (i + 1) = Some b ->
  slice s i (i + 2) = [a; b].
Proof.
  intros Ha Hb. unfold slice. replace (i + 2 - i) with 2 by lia.
  now apply firstn_2_skipn.
Qed.

Lemma slice_app (s : str) i j k :
  i <= j <= k -> slice s i k = slice s i j ++ slice s j k.
Proof.
  intros H. unfold slice.
  replace (k - i) with ((j - i) + (k - j)) by lia.
  rewrite firstn_plus, skipn_skipn.
  now replace (j - i + i) with j by lia.
Qed.

Lemma slice_empty (s : str) i : slice s i i = [].
Proof. unfold slice. now rewrite Nat.sub_diag. Qed.

Lemma count_newlines_app a b :
  count_newlines (a ++ b) = count_newlines a + count_newlines b.
Proof. unfold count_newlines. now rewrite filter_app, length_app. Qed.

(** A pass of the skipper either leaves the line bookkeeping alone and
    consumes no line terminator, or consumes exactly one line terminator
    and starts a new line behind it. *)
Lemma skip_body_lines l v l' v' :
  skip_body (l, v) = Ok (Continue (l', v')) ->
  (line l' = line l /\ line_start l' = line_start l /\
   count_newlines (slice (source l) (pos l) (pos l')) = 0) \/
  (line l' = S (line l) /\ line_start l' = pos l' /\ pos l' = S (pos l) /\
   exists c, nth_error (source l) (pos l) = Some c /\ is_newline c = true).
Proof.
  unfold skip_body; intros H.
  split_tests_in H; try discriminate; injection H as <- <-;
    cbn [line line_start pos source advance];
    repeat match goal with
           | E : nth_error _ (_ + 0) = _ |- _ => rewrite Nat.add_0_r in E
           end;
    try (right; rewrite !Nat.add_1_r; repeat split; eexists;
         split; [eassumption | assumption]);
    left; (split; [reflexivity|]); (split; [reflexivity|]);
    first
      [ erewrite slice_2 by eassumption
      | erewrite slice_1 by eassumption ];
    unfold count_newlines; cbn [filter];
    repeat match goal with
           | |- context [is_newline ?c] =>
               let Hn := fresh "Hn" in
               destruct (is_newline c) eqn:Hn;
               [ exfalso; unfold is_newline, char_in in Hn;
                 cbn [existsb] in Hn;
                 repeat (apply orb_true_iff in Hn; destruct Hn as [Hn | Hn]);
                 try discriminate;
                 apply char_eqb_eq in Hn; subst; simpl in *; congruence
               | ]
           end;
    reflexivity.
Qed.

Lemma count_newlines_1 c : is_newline c = true -> count_newlines [c] = 1.
Proof. intros H. unfold count_newlines. simpl. now rewrite H. Qed.

(** Over the passes of the skipper [line] grows by the number of line
    terminators passed, and [line_start] is the offset behind the last of
    them. *)
Lemma skip_reach_lines l0 l v :
  skip_reach l0 (l, v) ->
  let passed := slice (source l0) (pos l0) (pos l) in
  line l = line l0 + count_newlines passed /\
  (count_newlines passed = 0 -> line_start l = line_start l0) /\
  (0 < count_newlines passed ->
   pos l0 < line_start l <= pos l /\
   (exists c, nth_error (source l0) (line_start l - 1) = Some c /\
              is_newline c = true) /\
   count_newlines (slice (source l0) (line_start l) (pos l)) = 0).
Proof.
  intros Hreach. remember (l, v) as st eqn:Est. revert l v Est.
  induction Hreach as [|[l1 v1] st' Hr IH Hp]; intros l v Est.
  - injection Est as <- <-. cbn zeta. rewrite slice_empty.
    unfold count_newlines. simpl. repeat split; auto; lia.
  - subst st'. specialize (IH l1 v1 eq_refl). cbn zeta in IH |- *.
    destruct IH as (IHline & IH0 & IHpos).
    pose proof (skip_reach_inv Hr) as (Hsrc & Hpos & _). simpl in Hsrc, Hpos.
    pose proof (skip_body_progress _ _ Hp) as (_ & Hprog & _).
    rewrite (@slice_app (source l0) (pos l0) (pos l1) (pos l)) by lia.
    rewrite count_newlines_app.
    destruct (skip_body_lines _ _ Hp)
      as [(Hline & Hls & Hcount) | (Hline & Hls & Hnext & c & E & Hc)];
      rewrite Hsrc in *.
    + rewrite Hcount, Nat.add_0_r, Hline, Hls. split; [assumption|].
      split; [assumption|]. intros Hgt.
      destruct (IHpos Hgt) as (Hrange & Hnl & Hz).
      split; [lia|]. split; [assumption|].
      rewrite (@slice_app (source l0) (line_start l1) (pos l1) (pos l))
        by lia.
      rewrite count_newlines_app, Hz, Hcount. reflexivity.
    + assert (Hone : slice (source l0) (pos l1) (pos l) = [c])
        by (rewrite Hnext, <- Nat.add_1_r; now apply slice_1).
      rewrite Hone, (count_newlines_1 _ Hc), Hline, Hls.
      split; [lia|]. split; [lia|]. intros _.
      split; [lia|]. split.
      * exists c. split; [|assumption].
        replace (pos l - 1) with (pos l1) by lia. assumption.
      * now rewrite slice_empty.
Qed.

Lemma line_offset_0 (s : str) : line_offset s 0 = 0.
Proof. destruct s; reflexivity. Qed.

Lemma line_offset_newline (s : str) : forall i c,
  nth_error s i = Some c -> is_newline c = true ->
  line_offset s (S (count_newlines (firstn i s))) = S i.
Proof.
  induction s as [|x s IH]; intros [|i] c E Hc; simpl in E;
    try discriminate.
  - injection E as ->. unfold count_newlines.
    cbn [firstn filter length line_offset]. now rewrite Hc, line_offset_0.
  - specialize (IH i c E Hc). unfold count_newlines in *.
    cbn [firstn filter].
    destruct (is_newline x) eqn:Hx; cbn [length line_offset];
      now rewrite Hx, IH.
Qed.

Lemma firstn_slice (s : str) i j :
  i <= j -> firstn j s = firstn i s ++ slice s i j.
Proof.
  intros H. unfold slice. replace j with (i + (j - i)) at 1 by lia.
  apply firstn_plus.
Qed.

(** A pass of the skipper keeps the line bookkeeping in step with the
    source. *)
Lemma skip_body_in_step l v l' v' :
  skip_body (l, v) = Ok (Continue (l', v')) -> in_step l -> in_step l'.
Proof.
  intros Hp ((Hls & Hlen) & Hline & Hoff).
  pose proof (skip_body_progress _ _ Hp) as (Hsrc & Hprog & Hlen').
  unfold in_step. rewrite Hsrc.
  rewrite (@firstn_slice (source l) (pos l) (pos l')) by lia.
  rewrite count_newlines_app.
  destruct (skip_body_lines _ _ Hp)
    as [(Hl & Hs & Hcount) | (Hl & Hs & Hnext & c & E & Hc)].
  - rewrite Hl, Hs, Hcount. repeat split; first [lia | assumption].
  - assert (Hone : slice (source l) (pos l) (pos l') = [c])
      by (rewrite Hnext, <- Nat.add_1_r; now apply slice_1).
    rewrite Hone, (count_newlines_1 _ Hc), Hl, Hs.
    repeat split; try lia.
    rewrite Hline, Hnext. symmetry. now apply line_offset_newline with c.
Qed.

Lemma skip_reach_in_step l0 st :
  skip_reach l0 st -> in_step l0 -> in_step (fst st).
Proof.
  induction 1 as [|[l1 v1] [l2 v2] _ IH Hp]; intros H0; [assumption|].
  simpl in *. eapply skip_body_in_step; eauto.
Qed.

(** The scanner the skipper returns is one of the states of its loop. *)
Lemma skip_whitespace_reach l e l' :
  skip_whitespace l = Ok (e, l') ->
  exists v, skip_reach l (l', v) /\
    (e <> None -> current_comment_type v = Some MULTI_LINE) /\
    (e = None ->
     has_more l' 0 = false \/ skip_body (l', v) = Ok (Return (None, l'))).
Proof.
  intros H.
  destruct (skip_whitespace_cases l) as ([l1 v1] & Hreach & Hcase).
  simpl in Hcase. destruct Hcase as [[Hm Hfin] | [Hb Hret]].
  - rewrite H in Hfin. unfold skip_finish in Hfin. rewrite Hm in Hfin.
    simpl in Hfin.
    destruct (comment_type_eqb (current_comment_type v1) (Some MULTI_LINE))
      eqn:Ht; injection Hfin as -> ->.
    + rewrite advance_0. exists v1. split; [assumption|].
      split; [intros _; now apply comment_type_eqb_eq | discriminate].
    + exists v1. split; [assumption|]. split; [congruence | auto].
  - rewrite H in Hret. injection Hret as -> ->.
    exists v1. split; [assumption|]. split; [congruence | auto].
Qed.

(** ** The shape of the tokens *)

Lemma slice_length (s : str) i j :
  i <= j <= length s -> length (slice s i j) = j - i.
Proof.
  intros H. unfold slice. rewrite length_firstn, length_skipn. lia.
Qed.

Lemma run_at_bound p l n :
  pos l + n <= length (source l) ->
  pos l + n + length (run_at p (advance l n)) <= length (source l).
Proof.
  intros H. unfold run_at. cbn [advance source pos].
  pose proof (take_while_length p (skipn (pos l + n) (source l))) as Hl.
  rewrite length_skipn in Hl. lia.
Qed.

(** The token of the identifier/keyword recognizer: its text is the run
    at the cursor; its span is built behind the run, and the cursor is
    moved over the length of the run a second time. *)
Lemma lex_identifier_shape U l tok l' :
  lex_identifier_or_keyword U l = Ok (tok, l') ->
  let n := length (token_text tok) in
  is_symbol tok = false /\
  token_text tok = run_at (is_identifier_char U) l /\
  token_span tok = fst (build_span (advance l n) n) /\
  l' = advance (advance l n) n.
Proof.
  rewrite lex_identifier_or_keyword_run.
  destruct (find_keyword KeywordType_members
              (run_at (is_identifier_char U) l)) as [k|] eqn:Hf;
    intros [= <- <-]; cbn [token_text token_span is_symbol].
  - apply find_keyword_spelling in Hf. rewrite <- Hf. auto.
  - auto.
Qed.

(** The token of the number recognizer: its text is the source from the
    cursor on; its span is built behind the text, and the cursor is moved
    over the length of the text a second time. *)
Lemma lex_number_shape U l tok l' :
  lex_number U l = Ok (tok, l') ->
  let n := length (token_text tok) in
  is_symbol tok = false /\
  token_text tok = slice (source l) (pos l) (pos l + n) /\
  token_span tok = fst (build_span (advance l n) n) /\
  l' = advance (advance l n) n.
Proof.
  intros H. unfold lex_number in H.
  destruct (is_hex_prefix l) as [[|]| |] eqn:Hhex; cbn [bind] in H;
    try discriminate.
  - assert (Hm : has_more l 1 = true).
    { unfold is_hex_prefix in Hhex.
      destruct (peek l 0) as [c| |]; cbn [bind] in Hhex; try discriminate.
      destruct (char_eqb c (chr "0")); [|discriminate].
      destruct (has_more l 1); [reflexivity | discriminate]. }
    apply has_more_lt in Hm.
    rewrite scan_while_run in H. cbn [bind advance source pos] in H.
    pose proof (@run_at_bound (is_hex U) l 2 ltac:(lia)) as Hb.
    set (d := length (run_at (is_hex U) (advance l 2))) in *. clearbody d.
    assert (Hlen : length (slice (source l) (pos l) (pos l + 2 + d)) = 2 + d)
      by (rewrite slice_length; lia).
    replace (pos l + 2 + d - pos l) with (2 + d) in H by lia.
    destruct (2 + d =? 2) eqn:Hz; cbv beta iota zeta delta [build_span] in H;
      injection H as <- <-; cbn [token_text token_span is_symbol];
      rewrite Hlen, !advance_advance, <- !Nat.add_assoc.
    + apply Nat.eqb_eq in Hz. assert (d = 0) by lia. subst d.
      repeat split.
    + repeat split.
  - rewrite scan_while_run in H. cbn [bind advance source pos] in H.
    destruct (nth_error (source l) (pos l)) as [c|]; cbn [bind] in H;
      [|discriminate].
    rewrite slice_run in H.
    replace (pos l + length (run_at (is_numeric U) l) - pos l)
      with (length (run_at (is_numeric U) l)) in H by lia.
    destruct (char_eqb c (chr "0") && _);
      cbv beta iota zeta delta [build_span] in H;
      injection H as <- <-; cbn [token_text token_span is_symbol];
      rewrite slice_run; repeat split.
Qed.

Lemma operator_value_length o :
  length (operator_value o) = 1 \/ length (operator_value o) = 2.
Proof. destruct o; simpl; auto. Qed.

(** Every token comes from [build_span] at or behind the cursor the
    skipper left, and the scanner is left behind the span. *)
Lemma next_token_shape U l tok l' :
  next_token U l = Ok (Some tok, l') ->
  exists l1 k n,
    token_span tok = fst (build_span (advance l1 k) n) /\
    l' = advance (advance l1 k) n /\
    token_origin U l tok l' l1 k n.
Proof.
  unfold next_token.
  destruct (skip_whitespace_ok l) as (e & l1 & Hsk & Hsrc & Hpos & He).
  rewrite Hsk. cbn [bind]. destruct e as [t|].
  - intros [= <- <-]. exists l1, 0, 0.
    pose proof (skip_whitespace_reach _ Hsk) as (v & Hreach & Ht & _).
    specialize (Ht ltac:(discriminate)).
    assert (Hm : has_more l1 0 = false)
      by (apply has_more_ge; rewrite Hsrc; lia).
    pose proof Hsk as Hfin.
    rewrite (skip_whitespace_Break Hreach Hm) in Hfin.
    unfold skip_finish in Hfin. rewrite Hm in Hfin.
    apply comment_type_eqb_eq in Ht. rewrite Ht in Hfin.
    cbv beta iota zeta delta [negb andb build_span] in Hfin.
    injection Hfin as Htok. rewrite !advance_0.
    split; [rewrite <- Htok; reflexivity|]. split; [reflexivity|]. left.
    split; [exact Hsk|]. split; [reflexivity|]. split; [reflexivity|].
    rewrite <- Htok. cbn [token_span]. eexists. split; [reflexivity|].
    apply comment_type_eqb_eq in Ht.
    pose proof (skip_reach_inv Hreach) as (_ & _ & _ & _ & Hcs).
    destruct (Hcs Ht) as (cs & Hstart & _ & Hcs2 & _). cbn [fst snd] in *.
    rewrite Hstart, slice_from_nat, length_skipn, Hsrc. lia.
  - destruct (length (source l1) <=? pos l1) eqn:Hend; [discriminate|].
    apply Nat.leb_gt in Hend.
    assert (Hm : has_more l1 0 = true) by (apply has_more_lt; lia).
    destruct (peek_guarded l1 0 Hm) as (c & -> & E). cbn [bind].
    rewrite Nat.add_0_r in E.
    assert (Hone : slice (source l1) (pos l1) (pos l1 + 1) = [c])
      by now apply slice_1.
    assert (Hdirect : forall (t : Token) n,
      1 <= n <= 2 -> pos l1 + n <= length (source l1) ->
      token_span t = fst (build_span l1 n) ->
      token_text t = slice (source l1) (pos l1) (pos l1 + n) ->
      (is_symbol t = true \/
       exists c, t = ErrorToken [c] (token_span t) /\
                 char_in c symbol_chars = false /\
                 is_identifier_char U c = false) ->
      Ok (Some t, advance l1 n) = Ok (Some tok, l') ->
      exists l2 k n,
        token_span tok = fst (build_span (advance l2 k) n) /\
        l' = advance (advance l2 k) n /\
        token_origin U l tok l' l2 k n).
    { intros t n Hn Hlen Hspan Htext Hkind [= <- <-].
      exists l1, 0, n. rewrite advance_0.
      split; [assumption|]. split; [reflexivity|]. right; left.
      repeat split; auto; lia. }
    assert (Hsep : forall s,
      separator_value s = [c] ->
      some_token (Ok (separator l1 s)) = Ok (Some tok, l') ->
      exists l2 k n,
        token_span tok = fst (build_span (advance l2 k) n) /\
        l' = advance (advance l2 k) n /\
        token_origin U l tok l' l2 k n).
    { intros s Hs. apply Hdirect; cbn [token_text token_span is_symbol];
        auto; try lia. now rewrite Hone. }
    assert (Hop : forall a b,
      operator_value a = [c] -> operator_value b = [c; chr "="] ->
      some_token (single_or_assign l1 a b) = Ok (Some tok, l') ->
      exists l2 k n,
        token_span tok = fst (build_span (advance l2 k) n) /\
        l' = advance (advance l2 k) n /\
        token_origin U l tok l' l2 k n).
    { intros a b Ha Hb. unfold single_or_assign.
      destruct (has_more l1 1) eqn:Hm1.
      - destruct (peek_guarded l1 1 Hm1) as (c1 & -> & E1). cbn [bind].
        apply has_more_lt in Hm1.
        destruct (char_eqb c1 (chr "=")) eqn:Hc1.
        + apply char_eqb_eq in Hc1. subst c1.
          apply Hdirect; cbn [token_text token_span is_symbol];
            auto; try lia. now rewrite (slice_2 _ _ E E1).
        + apply Hdirect; cbn [token_text token_span is_symbol];
            auto; try lia. now rewrite Hone.
      - apply Hdirect; cbn [token_text token_span is_symbol];
          auto; try lia. now rewrite Hone. }
    repeat match goal with
           | |- context [if char_eqb c ?x then _ else _] =>
               let Hc := fresh "Hc" in
               destruct (char_eqb c x) eqn:Hc;
               [ apply char_eqb_eq in Hc;
                 first [ apply Hsep; rewrite Hc; reflexivity
                       | apply Hop; rewrite Hc; reflexivity ]
               | ]
           end.
    destruct (char_eqb c (chr "=")) eqn:Heq.
    { apply char_eqb_eq in Heq. cbv beta iota zeta delta [build_span].
      apply Hdirect; cbn [token_text token_span is_symbol];
        auto; try lia. now rewrite Hone, Heq. }
    destruct (is_identifier_char U c) eqn:Hid.
    + destruct (is_numeric U c) eqn:Hnum.
      * destruct (lex_number U l1) as [[t l2]| |] eqn:Hlex;
          cbn [some_token bind fst snd]; try discriminate.
        intros [= <- <-].
        destruct (lex_number_shape _ _ Hlex) as (Hsym & _ & Hspan & Hl2).
        exists l1, (length (token_text t)), (length (token_text t)).
        split; [assumption|]. split; [assumption|]. right; right.
        split; [assumption|]. repeat split; auto.
        exists c. repeat split; auto.
      * destruct (lex_identifier_or_keyword U l1) as [[t l2]| |] eqn:Hlex;
          cbn [some_token bind fst snd]; try discriminate.
        intros [= <- <-].
        destruct (lex_identifier_shape _ _ Hlex) as (Hsym & _ & Hspan & Hl2).
        exists l1, (length (token_text t)), (length (token_text t)).
        split; [assumption|]. split; [assumption|]. right; right.
        split; [assumption|]. repeat split; auto.
        exists c. repeat split; auto.
    + cbv beta iota zeta delta [build_span].
      apply Hdirect; cbn [token_text token_span is_symbol];
        auto; try lia. right. exists c.
      split; [reflexivity|]. split; [|assumption].
      unfold symbol_chars, char_in. cbn [existsb].
      repeat match goal with
             | Hx : char_eqb c _ = false |- _ => rewrite Hx; clear Hx
             end.
      reflexivity.
Qed.

Lemma lex_number_error_length U l message sp l' :
  lex_number U l = Ok (ErrorToken message sp, l') -> 2 <= length message.
Proof.
  intros H. unfold lex_number in H.
  destruct (is_hex_prefix l) as [[|]| |] eqn:Hhex; cbn [bind] in H;
    try discriminate.
  - assert (Hm : has_more l 1 = true).
    { unfold is_hex_prefix in Hhex.
      destruct (peek l 0) as [c| |]; cbn [bind] in Hhex; try discriminate.
      destruct (char_eqb c (chr "0")); [|discriminate].
      destruct (has_more l 1); [reflexivity | discriminate]. }
    apply has_more_lt in Hm.
    rewrite scan_while_run in H. cbn [bind advance source pos] in H.
    pose proof (@run_at_bound (is_hex U) l 2 ltac:(lia)) as Hb.
    destruct (_ =? 2); cbv beta iota zeta delta [build_span] in H;
      [|discriminate].
    injection H as <- _ _. rewrite slice_length; lia.
  - rewrite scan_while_run in H. cbn [bind advance source pos] in H.
    destruct (nth_error (source l) (pos l)) as [c|]; cbn [bind] in H;
      [|discriminate].
    rewrite slice_run in H.
    replace (pos l + length (run_at (is_numeric U) l) - pos l)
      with (length (run_at (is_numeric U) l)) in H by lia.
    destruct (char_eqb c (chr "0")); cbn [andb] in H;
      [|cbv beta iota zeta delta [build_span] in H; discriminate].
    destruct (1 <? length (run_at (is_numeric U) l)) eqn:Hlt;
      cbv beta iota zeta delta [build_span] in H; [|discriminate].
    injection H as <- _ _. apply Nat.ltb_lt in Hlt. lia.
Qed.

Lemma symbol_text_no_newline t :
  is_symbol t = true -> count_newlines (token_text t) = 0.
Proof.
  destruct t as [| o ? | s ? | | |]; try discriminate; intros _;
    [destruct o | destruct s]; reflexivity.
Qed.

(** While the line bookkeeping is in step, a span built at the cursor
    selects the characters it was built over. *)
Lemma span_text_in_step l n :
  in_step l ->
  span_text (source l) (fst (build_span l n)) =
  slice (source l) (pos l) (pos l + n).
Proof.
  intros ((Hls & _) & _ & Hoff).
  unfold span_text, start_offset, end_offset, build_span.
  cbn [fst start_line start_col end_line end_col].
  rewrite Nat2Z.id, <- Hoff. f_equal; lia.
Qed.

(** A token built at the cursor, from a scanner whose line bookkeeping is
    in step: the skipper returned no error, the span selects the characters
    from the cursor the skipper left to the cursor the call leaves, which
    are the text of the token, and the bookkeeping stays in step. *)
Lemma direct_token_step U l tok l' :
  in_step l ->
  next_token U l = Ok (Some tok, l') ->
  is_direct tok = true ->
  exists l1,
    skip_whitespace l = Ok (None, l1) /\
    source l1 = source l /\ source l' = source l /\
    pos l <= pos l1 /\ pos l1 < pos l' <= length (source l) /\
    token_text tok = slice (source l) (pos l1) (pos l') /\
    span_text (source l) (token_span tok) = token_text tok /\
    in_step l'.
Proof.
  intros Hstep H Hdir.
  destruct (next_token_shape _ _ H) as (l1 & k & n & Hspan & Hl' & Horigin).
  destruct Horigin as
    [(_ & _ & _ & m & Htok & Hlen)
    |[(Hsk & -> & Hn & Hbound & Htext & Hkind)
     |(Hsk & _ & _ & Hsym & c & E & Hid & Hlex)]].
  - rewrite Htok in Hdir. cbn [is_direct] in Hdir.
    apply Nat.eqb_eq in Hdir. lia.
  - rewrite advance_0 in *.
    destruct (skip_whitespace_reach _ Hsk) as (v & Hreach & _ & Hret).
    pose proof (skip_reach_in_step Hreach Hstep) as Hstep1.
    pose proof (skip_reach_inv Hreach) as (Hsrc & Hpos & _). cbn [fst] in *.
    exists l1. split; [assumption|]. split; [assumption|].
    split; [rewrite Hl'; assumption|]. split; [assumption|].
    split; [rewrite Hl'; cbn [advance pos]; rewrite <- Hsrc; lia|].
    split; [rewrite Hl', <- Hsrc; exact Htext|].
    split.
    + rewrite Hspan, Htext, <- Hsrc. now apply span_text_in_step.
    + assert (Hcount : count_newlines
                (slice (source l1) (pos l1) (pos l1 + n)) = 0).
      { rewrite <- Htext. destruct Hkind as [Hsym | (c & Htok & _)];
          [now apply symbol_text_no_newline|].
        rewrite Htok. cbn [token_text].
        destruct (Hret eq_refl) as [Hm | Hb];
          [apply has_more_ge in Hm; lia|].
        apply skip_body_Return in Hb as (_ & _ & _ & c1 & E1 & Hc1).
        assert (Heq : slice (source l1) (pos l1) (pos l1 + n) = [c]).
        { rewrite <- Htext, Htok. reflexivity. }
        assert (n = 1).
        { apply (f_equal (@length _)) in Heq.
          rewrite slice_length in Heq by lia. simpl in Heq. lia. }
        subst n. rewrite (slice_1 _ _ E1) in Heq. injection Heq as ->.
        unfold count_newlines, is_newline. cbn [filter].
        unfold char_in in *. cbn [existsb] in *.
        repeat (apply orb_false_iff in Hc1;
                let H1 := fresh "Hsp" in destruct Hc1 as [H1 Hc1]).
        now rewrite Hsp1, Hsp2. }
      destruct Hstep1 as ((Hls & Hlen) & Hline & Hoff).
      rewrite Hl'. unfold in_step. cbn [advance source pos line line_start].
      rewrite (@firstn_slice (source l1) (pos l1) (pos l1 + n)) by lia.
      rewrite count_newlines_app, Hcount, Nat.add_0_r.
      repeat split; first [lia | assumption].
  - destruct tok; try discriminate. cbn [is_direct] in Hdir.
    destruct Hlex as [[_ Hlex] | [_ Hlex]].
    + apply lex_number_error_length in Hlex.
      apply Nat.eqb_eq in Hdir. lia.
    + rewrite lex_identifier_or_keyword_run in Hlex.
      destruct (find_keyword _ _); discriminate.
Qed.

(** X3: while the line bookkeeping of the scanner is in step with its
    source, as it is in a fresh scanner, the span of every operator, of
    every separator and of every error for a single unrecognized character
    selects exactly the text of the token in the source, and the
    bookkeeping stays in step. *)
Theorem span_correct_at_cursor (U : UnicodeData) (l : Lexer) (tok : Token)
    (l' : Lexer) :
  in_step l ->
  next_token U l = Ok (Some tok, l') ->
  is_direct tok = true ->
  span_correct (source l) tok /\ in_step l'.
Proof.
  intros Hstep H Hdir.
  destruct (@direct_token_step U l tok l' Hstep H Hdir)
    as (l1 & _ & _ & _ & _ & _ & _ & Hspan & Hstep').
  split; assumption.
Qed.

Lemma span_correct_at_cursor_witness :
  span_correct [chr "("; chr "010"; chr ";"]
    (Separator SEMICOLON (mk_span 1 0 1 1)) /\
  in_step {| source := [chr "("; chr "010"; chr ";"];
             pos := 3; line_start := 2; line := 1 |}.
Proof.
  apply (@span_correct_at_cursor python_ascii
           {| source := [chr "("; chr "010"; chr ";"];
              pos := 1; line_start := 0; line := 0 |}).
  - repeat split; simpl; lia.
  - reflexivity.
  - reflexivity.
Defined.

Lemma lex_number_class U l tok l' :
  lex_number U l = Ok (tok, l') -> token_class tok = NumberClass.
Proof.
  intros H.
  assert (Herr : forall message sp,
            tok = ErrorToken message sp -> token_class tok = NumberClass).
  { intros message sp ->. apply lex_number_error_length in H.
    cbn [token_class]. destruct (length message =? 1) eqn:Hone;
      [apply Nat.eqb_eq in Hone; lia | reflexivity]. }
  unfold lex_number in H.
  destruct (is_hex_prefix l) as [[|]| |]; cbn [bind] in H;
    try discriminate;
    destruct (scan_while _ _) as [l1| |]; cbn [bind] in H;
    try discriminate;
    repeat first
      [ progress cbn [bind] in H
      | match type of H with
        | context [match ?x with _ => _ end] => destruct x
        end ];
    try discriminate;
    injection H as Htok _;
    first [ now apply Herr with (1 := eq_sym Htok)
          | now rewrite <- Htok ].
Qed.

Lemma slice_hd (s : str) i n c :
  nth_error s i = Some c -> 1 <= n -> hd_error (slice s i (i + n)) = Some c.
Proof.
  intros E Hn. unfold slice. replace (i + n - i) with n by lia.
  rewrite (skipn_nth_error _ _ E). destruct n; [lia | reflexivity].
Qed.

(** X4: the character at which the skipper stops decides the class of
    the token [next_token] returns: a separator, an operator, a number
    (literal or malformed), a word (identifier or keyword) or the error for
    an unrecognized character; the text of the token starts with that
    character. *)
Theorem first_character_decides_class (U : UnicodeData) (l l1 : Lexer)
    (c : char) (tok : Token) (l' : Lexer) :
  skip_whitespace l = Ok (None, l1) ->
  nth_error (source l1) (pos l1) = Some c ->
  next_token U l = Ok (Some tok, l') ->
  token_class tok = char_class U c /\ hd_error (token_text tok) = Some c.
Proof.
  intros Hsk E H.
  destruct (next_token_shape _ _ H) as (l2 & k & n & _ & _ & Horigin).
  destruct Horigin as
    [(Hsk' & _) | [(Hsk' & _ & Hn & Hbound & Htext & Hkind)
                  |(Hsk' & _ & Hlen & Hsym & c' & E' & Hid & Hlex)]];
    rewrite Hsk in Hsk'; try discriminate; injection Hsk' as <-.
  - assert (Hhd : hd_error (token_text tok) = Some c)
      by (rewrite Htext; apply slice_hd; [assumption | lia]).
    split; [|assumption].
    destruct Hkind as [Hsym | (c' & Htok & Hnot & Hid)].
    + destruct tok as [| o ? | s ? | | |]; try discriminate;
        cbn [token_text token_class] in *.
      * destruct o; injection Hhd as <-; reflexivity.
      * destruct s; injection Hhd as <-; reflexivity.
    + rewrite Htok in Hhd |- *. cbn [token_text token_class] in *.
      injection Hhd as ->. unfold char_class.
      unfold symbol_chars, char_in in Hnot. cbn [existsb] in Hnot.
      repeat (apply orb_false_iff in Hnot;
              let H1 := fresh "Hsp" in destruct Hnot as [H1 Hnot]).
      unfold char_in. cbn [existsb length Nat.eqb].
      rewrite Hsp, Hsp0, Hsp1, Hsp2, Hsp3, Hsp4, Hsp5, Hsp6, Hsp7, Hsp8,
        Hsp9, Hid. reflexivity.
  - rewrite E in E'. injection E' as <-.
    assert (Hclass : char_class U c =
                     if is_numeric U c then NumberClass else WordClass).
    { unfold next_token in H. rewrite Hsk in H. cbn [bind] in H.
      assert (Hlt : pos l1 < length (source l1))
        by (apply nth_error_Some; congruence).
      apply Nat.leb_gt in Hlt. rewrite Hlt in H.
      assert (Hpk : peek l1 0 = Ok c)
        by (apply peek_Ok; now rewrite Nat.add_0_r).
      rewrite Hpk in H. cbn [bind] in H.
      unfold char_class, char_in. cbn [existsb].
      repeat match type of H with
             | (if char_eqb c ?x then _ else _) = _ =>
                 let Hc := fresh "Hc" in
                 destruct (char_eqb c x) eqn:Hc;
                 [ exfalso; apply char_eqb_eq in Hc; subst c;
                   revert H; clear -Hsym;
                   cbv beta iota zeta delta
                     [some_token separator single_or_assign build_span bind];
                   repeat match goal with
                          | |- context [if ?b then _ else _] => destruct b
                          | |- context [peek ?a ?b] => destruct (peek a b)
                          end;
                   cbn [bind fst snd]; intros [=]; subst tok; discriminate
                 | cbn [orb] ]
             end.
      now rewrite Hid. }
    rewrite Hclass. destruct Hlex as [[Hnum Hlex] | [Hnum Hlex]];
      rewrite Hnum.
    + pose proof (lex_number_shape _ _ Hlex) as (_ & Htext & _).
      assert (Hpos : 1 <= length (token_text tok)).
      { destruct (lex_number_ok U _ E Hnum) as (t2 & l2 & Hlex2 & _ & Hp).
        rewrite Hlex in Hlex2. injection Hlex2 as <- <-.
        pose proof (lex_number_shape _ _ Hlex) as (_ & _ & _ & Hl').
        rewrite Hl' in Hp. simpl in Hp. lia. }
      split; [|rewrite Htext; now apply slice_hd].
      now apply lex_number_class with U l1 l'.
    + pose proof (lex_identifier_shape _ _ Hlex) as (_ & Htext & _).
      split.
      * rewrite lex_identifier_or_keyword_run in Hlex.
        destruct (find_keyword _ _); injection Hlex as <- _; reflexivity.
      * rewrite Htext, (run_at_cons _ _ E Hid). reflexivity.
Qed.

Lemma first_character_decides_class_witness :
  token_class (ErrorToken (lit "007") (mk_span 0 3 0 6)) =
    char_class python_ascii (chr "0") /\
  hd_error (lit "007") = Some (chr "0").
Proof.
  exact (@first_character_decides_class python_ascii
           (for_string (lit "007")) (for_string (lit "007")) (chr "0")
           (ErrorToken (lit "007") (mk_span 0 3 0 6))
           {| source := lit "007"; pos := 6; line_start := 0; line := 0 |}
           eq_refl eq_refl eq_refl).
Defined.

(** X5: both recognizers move the cursor over the text of the token and
    then build the span at the moved cursor: for a token whose text has
    [n] characters and starts at the cursor, the span starts [n] columns
    behind the cursor and is [n] columns wide, and the scanner is left
    [2 * n] characters behind the cursor, on the same line. *)
Theorem recognizer_moves_twice (U : UnicodeData) (l : Lexer) (tok : Token)
    (l' : Lexer) :
  lex_identifier_or_keyword U l = Ok (tok, l') \/
  lex_number U l = Ok (tok, l') ->
  let n := length (token_text tok) in
  let col := (Z.of_nat (pos l) - Z.of_nat (line_start l))%Z in
  token_text tok = slice (source l) (pos l) (pos l + n) /\
  token_span tok =
    mk_span (Z.of_nat (line l)) (col + Z.of_nat n)
            (Z.of_nat (line l)) (col + 2 * Z.of_nat n) /\
  l' = {| source := source l; pos := pos l + 2 * n;
          line_start := line_start l; line := line l |}.
Proof.
  intros H n col.
  assert (Hshape : token_text tok = slice (source l) (pos l) (pos l + n) /\
                   token_span tok = fst (build_span (advance l n) n) /\
                   l' = advance (advance l n) n).
  { destruct H as [H | H].
    - destruct (lex_identifier_shape _ _ H) as (_ & Htext & Hspan & Hl').
      repeat split; auto. unfold n. rewrite Htext at 2.
      now rewrite slice_run.
    - destruct (lex_number_shape _ _ H) as (_ & Htext & Hspan & Hl').
      repeat split; auto. }
  destruct Hshape as (Htext & Hspan & Hl').
  split; [assumption|]. split.
  - rewrite Hspan. unfold build_span, mk_span, col.
    cbn [fst advance pos line line_start]. f_equal; lia.
  - rewrite Hl'. unfold advance. cbn [source pos line line_start].
    f_equal. lia.
Qed.

Lemma recognizer_moves_twice_witness :
  token_span (Identifier (lit "abc") (mk_span 0 4 0 7)) = mk_span 0 4 0 7 /\
  {| source := lit " abc"; pos := 7; line_start := 0; line := 0 |} =
  {| source := lit " abc"; pos := 1 + 2 * 3; line_start := 0; line := 0 |}.
Proof.
  exact (proj2 (@recognizer_moves_twice python_ascii
           {| source := lit " abc"; pos := 1; line_start := 0; line := 0 |}
           (Identifier (lit "abc") (mk_span 0 4 0 7))
           {| source := lit " abc"; pos := 7; line_start := 0; line := 0 |}
           (or_introl eq_refl))).
Defined.

(** X6: the skipper adds to [line] the number of line terminators it
    passes, each "\n" and each "\r" counting on its own; when it passes
    none it leaves [line_start] alone, and otherwise [line_start] is the
    offset just behind the last line terminator passed. *)
Theorem skipper_counts_lines (l : Lexer) (e : option Token) (l1 : Lexer) :
  skip_whitespace l = Ok (e, l1) ->
  let passed := slice (source l) (pos l) (pos l1) in
  source l1 = source l /\ pos l <= pos l1 /\
  line l1 = line l + count_newlines passed /\
  (count_newlines passed = 0 -> line_start l1 = line_start l) /\
  (0 < count_newlines passed ->
   pos l < line_start l1 <= pos l1 /\
   (exists c, nth_error (source l) (line_start l1 - 1) = Some c /\
              is_newline c = true) /\
   count_newlines (slice (source l) (line_start l1) (pos l1)) = 0).
Proof.
  intros H passed.
  destruct (skip_whitespace_reach _ H) as (v & Hreach & _).
  pose proof (skip_reach_inv Hreach) as (Hsrc & Hpos & _).
  split; [assumption|]. split; [assumption|].
  exact (skip_reach_lines Hreach).
Qed.

Lemma skipper_counts_lines_witness :
  line {| source := [chr "013"; chr "010"; chr "x"];
          pos := 2; line_start := 2; line := 2 |} =
  0 + count_newlines [chr "013"; chr "010"].
Proof.
  exact (proj1 (proj2 (proj2 (@skipper_counts_lines
           (for_string [chr "013"; chr "010"; chr "x"]) None
           {| source := [chr "013"; chr "010"; chr "x"];
              pos := 2; line_start := 2; line := 2 |} eq_refl)))).
Defined.

Lemma firstn_2_chars (s : str) i a b :
  firstn 2 (skipn i s) = [a; b] ->
  nth_error s i = Some a /\ nth_error s (i + 1) = Some b.
Proof.
  intros H. rewrite <- (Nat.add_0_r i) at 1. rewrite <- !nth_error_skipn.
  destruct (skipn i s) as [|x [|y r]]; try discriminate.
  injection H as -> ->. auto.
Qed.

(** X7: when the skipper returns without an error, it has come to the end
    of input or stands in front of a character that is no blank, no tab
    and no line terminator and that does not open a comment: the text
    behind the cursor starts with neither "//" nor "/*". *)
Theorem skipper_stops_at_token (l l1 : Lexer) :
  skip_whitespace l = Ok (None, l1) ->
  length (source l1) <= pos l1 \/
  exists c,
    nth_error (source l1) (pos l1) = Some c /\
    char_in c [chr " "; chr "009"; chr "010"; chr "013"] = false /\
    firstn 2 (rest l1) <> lit "//" /\
    firstn 2 (rest l1) <> lit "/*".
Proof.
  intros H.
  destruct (skip_whitespace_reach _ H) as (v & Hreach & _ & Hret).
  destruct (Hret eq_refl) as [Hm | Hb];
    [left; apply has_more_ge in Hm; lia|]. right.
  pose proof (skip_reach_inv Hreach) as (_ & _ & [Hd Hd0] & _).
  cbn [fst snd] in *.
  pose proof (skip_body_Return _ _ Hb) as (_ & _ & Ht & c & E & Hc).
  specialize (Ht Hd).
  exists c. split; [assumption|]. split; [assumption|].
  unfold rest.
  split; intros Hf; apply pair_at_cursor in Hf as (H0 & H1 & P0 & P1);
    unfold skip_body in Hb; rewrite H0, P0, H1, P1, Ht in Hb;
    discriminate.
Qed.

Lemma skipper_stops_at_token_witness :
  length (lit "  / x") <= 2 \/
  exists c,
    nth_error (lit "  / x") 2 = Some c /\
    char_in c [chr " "; chr "009"; chr "010"; chr "013"] = false /\
    firstn 2 (skipn 2 (lit "  / x")) <> lit "//" /\
    firstn 2 (skipn 2 (lit "  / x")) <> lit "/*".
Proof.
  exact (@skipper_stops_at_token (for_string (lit "  / x"))
           {| source := lit "  / x"; pos := 2; line_start := 0; line := 0 |}
           eq_refl).
Defined.

(** Where a token returned by [next_token] lies: its span is on the line
    the scanner is left on and ends at the column the scanner is left at;
    it starts on a later line than the call started on, or on the same
    line at or behind the column the call started at. *)
Lemma next_token_span U l tok l' :
  next_token U l = Ok (Some tok, l') ->
  let sp := token_span tok in
  span_on_line sp /\
  end_line sp = Z.of_nat (line l') /\
  end_col sp = (Z.of_nat (pos l') - Z.of_nat (line_start l'))%Z /\
  (line l < line l' \/
   (line l = line l' /\ line_start l = line_start l' /\
    (Z.of_nat (pos l) - Z.of_nat (line_start l) <= start_col sp)%Z)).
Proof.
  intros H sp.
  destruct (next_token_shape _ _ H) as (l1 & k & n & Hspan & Hl' & Horigin).
  assert (Hsk : exists e, skip_whitespace l = Ok (e, l1)).
  { destruct Horigin as [(Hsk & _) | [(Hsk & _) | (Hsk & _)]]; eauto. }
  destruct Hsk as (e & Hsk).
  destruct (skip_whitespace_reach _ Hsk) as (v & Hreach & _).
  pose proof (skip_reach_inv Hreach) as (_ & Hpos & _). cbn [fst] in Hpos.
  pose proof (skip_reach_lines Hreach) as (Hline & Hsame & Hnew).
  cbn zeta in Hline, Hsame, Hnew.
  unfold sp, span_on_line. rewrite Hspan, Hl'. unfold build_span.
  cbn [fst advance pos line line_start start_line start_col end_line
       end_col].
  split; [split; [reflexivity | lia]|]. split; [reflexivity|].
  split; [lia|].
  destruct (count_newlines (slice (source l) (pos l) (pos l1))) as [|m];
    [right | left; lia].
  rewrite Nat.add_0_r in Hline. rewrite (Hsame eq_refl).
  repeat split; auto; lia.
Qed.

(** X8: the span of every token lies on one line and its start column is
    not behind its end column; and the spans of two tokens returned by
    successive calls are in order as pairs of a line and a column: the
    pair at which the first span ends is the pair at which the second
    starts or one in front of it.  This is the order of the lines and
    columns the scanner records, not of the offsets that the spans select
    in the source. *)
Theorem spans_in_order (U : UnicodeData) (l : Lexer) (t1 : Token)
    (l1 : Lexer) :
  next_token U l = Ok (Some t1, l1) ->
  span_on_line (token_span t1) /\
  (forall (t2 : Token) (l2 : Lexer),
     next_token U l1 = Ok (Some t2, l2) ->
     span_before (token_span t1) (token_span t2)).
Proof.
  intros H1.
  destruct (next_token_span _ _ H1) as (Hon1 & Hel1 & Hec1 & _).
  split; [assumption|]. intros t2 l2 H2.
  destruct (next_token_span _ _ H2) as (Hon2 & Hel2 & _ & Hafter).
  unfold span_before. destruct Hon2 as [Hsl2 _]. rewrite Hsl2, Hel1, Hel2.
  destruct Hafter as [Hlt | (Heq & Hls & Hcol)]; [left; lia|].
  right. rewrite Hec1, Heq. split; [reflexivity | assumption].
Qed.

Lemma spans_in_order_witness :
  span_on_line (mk_span 0 5 0 10) /\
  span_before (mk_span 0 5 0 10) (mk_span 1 1 1 2).
Proof.
  destruct (@spans_in_order python_ascii
              (for_string (lit "abcde" ++ chr "010" :: lit "xyzw"
                             ++ chr "010" :: lit "z"))
              (Identifier (lit "abcde") (mk_span 0 5 0 10))
              {| source := lit "abcde" ++ chr "010" :: lit "xyzw"
                             ++ chr "010" :: lit "z";
                 pos := 10; line_start := 0; line := 0 |}
              eq_refl) as [Hon Hbefore].
  split; [exact Hon|].
  exact (Hbefore (Identifier (lit "z") (mk_span 1 1 1 2))
           {| source := lit "abcde" ++ chr "010" :: lit "xyzw"
                          ++ chr "010" :: lit "z";
              pos := 13; line_start := 11; line := 1 |}
           eq_refl).
Defined.

(** ** Blank text *)

(** Outside a block comment a blank, a tab or a line terminator is
    consumed; a line terminator ends a line comment. *)
Lemma skip_body_blank_char l v c :
  current_comment_type v <> Some MULTI_LINE ->
  nth_error (source l) (pos l) = Some c ->
  char_in c [chr " "; chr "009"; chr "010"; chr "013"] = true ->
  exists l' v',
    skip_body (l, v) = Ok (Continue (l', v')) /\
    source l' = source l /\ pos l' = pos l + 1 /\
    (current_comment_type v' = current_comment_type v \/
     (is_newline c = true /\ current_comment_type v' = None)).
Proof.
  intros Ht E Hc. destruct (char_guarded _ E) as [Hm Hpk].
  unfold skip_body. rewrite Hm, Hpk. cbn [negb bind].
  destruct (char_in c [chr " "; chr "009"]) eqn:Hb.
  - eexists _, _. split; [reflexivity|]. simpl. auto.
  - assert (Hn : char_in c [chr "010"; chr "013"] = true).
    { unfold char_in in *. cbn [existsb] in *.
      apply orb_false_iff in Hb as [Hb1 Hb2].
      apply orb_false_iff in Hb2 as [Hb2 _].
      now rewrite Hb1, Hb2 in Hc. }
    rewrite Hn.
    destruct (comment_type_eqb (current_comment_type v) (Some SINGLE_LINE));
      eexists _, _; (split; [reflexivity|]); simpl; auto.
Qed.

(** Inside a line comment every character that is no line terminator is
    consumed and changes nothing else. *)
Lemma skip_body_line_char l v c :
  current_comment_type v = Some SINGLE_LINE ->
  nth_error (source l) (pos l) = Some c ->
  is_newline c = false ->
  skip_body (l, v) = Ok (Continue (advance l 1, v)).
Proof.
  intros Ht E Hc. destruct (char_guarded _ E) as [Hm Hpk].
  unfold skip_body. rewrite Hm, Hpk, Ht. cbn [negb bind comment_type_eqb].
  unfold is_newline in Hc. rewrite Hc.
  destruct (char_in c [chr " "; chr "009"]); [reflexivity|].
  destruct (char_eqb c (chr "/")); reflexivity.
Qed.

Lemma skip_over_line_body body :
  Forall (fun x => is_newline x = false) body ->
  forall l0 l v r,
    skip_reach l0 (l, v) ->
    current_comment_type v = Some SINGLE_LINE ->
    rest l = body ++ r ->
    skip_reach l0 (advance l (length body), v).
Proof.
  induction 1 as [|c body Hc _ IH]; intros l0 l v r Hreach Ht Hrest.
  - simpl. now rewrite advance_0.
  - pose proof (rest_cons _ Hrest) as E.
    pose proof (skip_body_line_char _ _ Ht E Hc) as Hp.
    specialize (IH l0 (advance l 1) v r (reach_pass Hreach Hp) Ht).
    rewrite advance_advance in IH. apply IH.
    unfold rest in *. exact (skipn_behind _ [c] _ _ Hrest).
Qed.

(** The pass of the skipper at the opener of a line comment. *)
Lemma skip_body_open_line l v :
  current_comment_type v = None ->
  firstn 2 (rest l) = lit "//" ->
  skip_body (l, v) =
  Ok (Continue (advance l 2,
                {| current_comment_type := Some SINGLE_LINE;
                   multi_line_comment_depth := multi_line_comment_depth v;
                   comment_start := Z.of_nat (pos l) |})).
Proof.
  intros Ht H. apply pair_at_cursor in H as (H0 & H1 & P0 & P1).
  unfold skip_body. rewrite H0, P0, H1, P1, Ht. reflexivity.
Qed.

(** Outside any comment the skipper runs over blank text and is outside
    any comment behind it. *)
Lemma skip_over_blank b :
  blank b ->
  forall l0 l v r,
    skip_reach l0 (l, v) ->
    current_comment_type v = None ->
    rest l = b ++ r ->
    exists l' v',
      skip_reach l0 (l', v') /\ current_comment_type v' = None /\
      source l' = source l /\ pos l' = pos l + length b.
Proof.
  induction 1 as [|c b Hc Hb IH|body b Hbody Hb IH|body c b Hbody Hc Hb IH];
    intros l0 l v r Hreach Ht Hrest.
  - exists l, v. simpl. repeat split; auto.
  - pose proof (rest_cons _ Hrest) as E.
    destruct (@skip_body_blank_char l v c ltac:(congruence) E Hc)
      as (l1 & v1 & Hp & Hsrc & Hpos & Ht1).
    destruct (IH l0 l1 v1 r) as (l' & v' & Hr & Ht' & Hsrc' & Hpos').
    + exact (reach_pass Hreach Hp).
    + destruct Ht1 as [Ht1 | [_ Ht1]]; congruence.
    + unfold rest in *. rewrite Hsrc, Hpos.
      exact (skipn_behind _ [c] _ _ Hrest).
    + exists l', v'. simpl. repeat split; auto; try congruence; lia.
  - assert (Hrest0 : rest l = lit "/*" ++ body ++ lit "*/" ++ b ++ r)
      by (rewrite Hrest, <- !app_assoc; reflexivity).
    destruct (@skip_over_comment body l0 l v (b ++ r) Hbody Hreach Ht Hrest0)
      as (l1 & cs1 & Hr1 & Hsrc1 & Hpos1).
    destruct (IH l0 l1 _ r Hr1 eq_refl) as (l' & v' & Hr & Ht' & Hsrc' & Hpos').
    + unfold rest in *. rewrite Hsrc1, Hpos1.
      replace (pos l + length body + 4)
        with (pos l + length (lit "/*" ++ body ++ lit "*/"))
        by (rewrite !length_app; simpl; lia).
      apply (skipn_behind _ (lit "/*" ++ body ++ lit "*/")).
      rewrite Hrest0, <- !app_assoc. reflexivity.
    + exists l', v'. repeat split; auto; try congruence.
      rewrite Hpos', Hpos1. simpl. rewrite ?length_app. simpl.
      rewrite ?length_app. simpl. lia.
  - assert (Hrest0 : rest l = lit "//" ++ body ++ c :: b ++ r)
      by (rewrite Hrest, <- !app_assoc; reflexivity).
    assert (Hopen := @skip_body_open_line l v Ht
                       ltac:(rewrite Hrest0; reflexivity)).
    set (v1 := {| current_comment_type := Some SINGLE_LINE;
                  multi_line_comment_depth := multi_line_comment_depth v;
                  comment_start := Z.of_nat (pos l) |}) in *.
    assert (Hrest1 : rest (advance l 2) = body ++ c :: b ++ r)
      by exact (skipn_behind _ (lit "//") _ _ Hrest0).
    pose proof (@skip_over_line_body body Hbody l0 (advance l 2) v1 _
                  (reach_pass Hreach Hopen) eq_refl Hrest1) as Hr2.
    rewrite advance_advance in Hr2.
    set (l2 := advance l (2 + length body)) in *.
    assert (Hrest2 : rest l2 = c :: b ++ r).
    { unfold rest, l2. cbn [advance source pos].
      rewrite Nat.add_assoc.
      exact (skipn_behind _ body _ _ Hrest1). }
    pose proof (rest_cons _ Hrest2) as E2.
    assert (Hc' : char_in c [chr " "; chr "009"; chr "010"; chr "013"]
                  = true).
    { unfold is_newline, char_in in *. cbn [existsb] in *.
      rewrite Hc. now rewrite !orb_true_r. }
    destruct (@skip_body_blank_char l2 v1 c ltac:(discriminate) E2 Hc')
      as (l3 & v3 & Hp & Hsrc3 & Hpos3 & Ht3).
    assert (Hnone : current_comment_type v3 = None).
    { destruct Ht3 as [Ht3 | [_ Ht3]]; [|assumption].
      unfold skip_body in Hp. destruct (char_guarded _ E2) as [Hm Hpk].
      rewrite Hm, Hpk in Hp. cbn [negb bind] in Hp.
      unfold is_newline in Hc.
      destruct (char_in c [chr " "; chr "009"]) eqn:Hblank.
      - exfalso. unfold char_in in *. cbn [existsb] in *.
        apply orb_true_iff in Hblank as [Hx | Hx];
          [|apply orb_true_iff in Hx as [Hx | Hx]; [|discriminate]];
          apply char_eqb_eq in Hx; subst c; discriminate.
      - rewrite Hc in Hp. cbn [v1 current_comment_type comment_type_eqb]
          in Hp. injection Hp as _ <-. reflexivity. }
    destruct (IH l0 l3 v3 r (reach_pass Hr2 Hp) Hnone)
      as (l' & v' & Hr & Ht' & Hsrc' & Hpos').
    + unfold rest in *. rewrite Hsrc3, Hpos3.
      exact (skipn_behind _ [c] _ _ Hrest2).
    + exists l', v'. repeat split; auto.
      * rewrite Hsrc', Hsrc3. reflexivity.
      * rewrite Hpos', Hpos3. unfold l2. cbn [advance pos].
        simpl. rewrite ?length_app. simpl. rewrite ?length_app. simpl. lia.
Qed.

(** Outside any comment the skipper returns at a character that starts a
    token. *)
Lemma skip_body_stop l v c :
  current_comment_type v = None ->
  (multi_line_comment_depth v <= 0)%Z ->
  nth_error (source l) (pos l) = Some c ->
  char_in c [chr " "; chr "009"; chr "010"; chr "013"] = false ->
  firstn 2 (rest l) <> lit "//" ->
  firstn 2 (rest l) <> lit "/*" ->
  skip_body (l, v) = Ok (Return (None, l)).
Proof.
  intros Ht Hd E Hc H1 H2. destruct (char_guarded _ E) as [Hm Hpk].
  unfold skip_body. rewrite Hm, Hpk, Ht. cbn [negb bind comment_type_eqb].
  unfold char_in in *. cbn [existsb] in *.
  repeat (apply orb_false_iff in Hc;
          let H := fresh "Hc" in destruct Hc as [H Hc]).
  rewrite Hc0, Hc1, Hc2, Hc3. cbn [orb].
  destruct (char_eqb c (chr "/")) eqn:Hs; [|reflexivity].
  apply char_eqb_eq in Hs. subst c.
  destruct (has_more l 1) eqn:Hm1.
  - destruct (peek_guarded _ _ Hm1) as (c1 & Hpk1 & E1). rewrite Hpk1.
    cbn [bind]. unfold rest in *.
    rewrite (firstn_2_skipn _ _ E E1) in H1, H2.
    destruct (char_eqb c1 (chr "/")) eqn:Ha;
      [apply char_eqb_eq in Ha; subst c1; now elim H1|].
    destruct (char_eqb c1 (chr "*")) eqn:Hb;
      [apply char_eqb_eq in Hb; subst c1; now elim H2|].
    reflexivity.
  - destruct (multi_line_comment_depth v >? 0)%Z eqn:Hg; [|reflexivity].
    apply Z.gtb_lt in Hg. lia.
Qed.

(** X9: from any scanner state the skipper passes over blank text (blanks,
    tabs, line terminators, block comments, and line comments up to and
    including their line terminator, whatever else they contain) when the
    end of input or the start of a token follows: it returns no error,
    leaves the cursor behind the blank text and has counted its line
    terminators.  When nothing follows, [next_token] returns no token. *)
Theorem blank_text_skipped (U : UnicodeData) (l : Lexer) (b r : str) :
  blank b -> token_start r -> rest l = b ++ r ->
  exists l1,
    skip_whitespace l = Ok (None, l1) /\
    source l1 = source l /\
    pos l1 = pos l + length b /\
    line l1 = line l + count_newlines b /\
    (r = [] -> next_token U l = Ok (None, l1)).
Proof.
  intros Hb Hr Hrest.
  destruct (@skip_over_blank b Hb l l skip_init r (reach_start l) eq_refl
              Hrest) as (l1 & v1 & Hreach & Ht & Hsrc & Hpos).
  assert (Hrest1 : rest l1 = r).
  { unfold rest in *. rewrite Hsrc, Hpos.
    exact (skipn_behind _ b _ _ Hrest). }
  assert (Hsk : skip_whitespace l = Ok (None, l1)).
  { destruct r as [|c r'].
    - assert (Hm : has_more l1 0 = false).
      { apply has_more_ge. rewrite Nat.add_0_r.
        unfold rest in Hrest1.
        destruct (Nat.le_gt_cases (length (source l1)) (pos l1)) as [|Hlt];
          [assumption|].
        apply (f_equal (@length _)) in Hrest1.
        rewrite length_skipn in Hrest1. simpl in Hrest1. lia. }
      rewrite (@skip_whitespace_Break l (l1, v1) Hreach Hm).
      unfold skip_finish. rewrite Ht. cbn [comment_type_eqb].
      now rewrite andb_false_r.
    - destruct Hr as (Hc & H1 & H2).
      pose proof (skip_reach_inv Hreach) as (_ & _ & [Hd Hd0] & _).
      cbn [fst snd] in *.
      apply (@skip_whitespace_Return l (l1, v1) _ Hreach).
      apply skip_body_stop with c; auto.
      + destruct (Z.le_gt_cases (multi_line_comment_depth v1) 0) as [|Hg];
          [assumption|].
        apply Z.lt_gt, Z.gt_lt, Hd in Hg. congruence.
      + now apply rest_cons with r'.
      + now rewrite Hrest1.
      + now rewrite Hrest1. }
  exists l1. repeat split; auto.
  - destruct (skip_reach_lines Hreach) as (Hl & _). rewrite Hl. f_equal.
    f_equal. unfold slice, rest in *.
    rewrite Hpos, Hrest, Nat.add_comm, Nat.add_sub, firstn_app, Nat.sub_diag.
    rewrite firstn_all. simpl. now rewrite app_nil_r.
  - intros ->. unfold next_token. rewrite Hsk. cbn [bind].
    unfold rest in Hrest1.
    assert (Hle : length (source l1) <= pos l1).
    { destruct (Nat.le_gt_cases (length (source l1)) (pos l1)) as [|Hlt];
        [assumption|].
      apply (f_equal (@length _)) in Hrest1.
      rewrite length_skipn in Hrest1. simpl in Hrest1. lia. }
    apply Nat.leb_le in Hle. now rewrite Hle.
Qed.

Lemma blank_text_skipped_witness :
  exists l1,
    skip_whitespace (for_string (lit " //*/" ++ chr "010" :: lit "/*a*/y")) =
    Ok (None, l1) /\ pos l1 = 11 /\ line l1 = 1.
Proof.
  destruct (@blank_text_skipped python_ascii
              (for_string (lit " //*/" ++ chr "010" :: lit "/*a*/y"))
              (lit " //*/" ++ chr "010" :: lit "/*a*/") (lit "y"))
    as (l1 & H & _ & Hp & Hl & _).
  - apply blank_char; [reflexivity|].
    apply (@blank_line (lit "*/") (chr "010") (lit "/*a*/"));
      [repeat constructor | reflexivity |].
    apply (@blank_block (lit "a") []); [|constructor].
    apply body_char; [discriminate | discriminate | constructor].
  - simpl. repeat split; discriminate.
  - reflexivity.
  - exists l1. auto.
Defined.

(** X10: a line comment needs no line terminator: when the text behind the
    cursor is blank text followed by "//" and characters that are no line
    terminators up to the end of input, [next_token] returns no token and
    no error and leaves the cursor at the end of input. *)
Theorem line_comment_at_end (U : UnicodeData) (l : Lexer) (b body : str) :
  blank b ->
  Forall (fun x => is_newline x = false) body ->
  rest l = b ++ lit "//" ++ body ->
  exists l1,
    next_token U l = Ok (None, l1) /\
    source l1 = source l /\
    pos l1 = length (source l) /\
    line l1 = line l + count_newlines b.
Proof.
  intros Hb Hbody Hrest.
  destruct (@skip_over_blank b Hb l l skip_init _ (reach_start l) eq_refl
              Hrest) as (l1 & v1 & Hreach & Ht & Hsrc & Hpos).
  assert (Hrest1 : rest l1 = lit "//" ++ body ++ []).
  { unfold rest in *. rewrite Hsrc, Hpos, app_nil_r.
    exact (skipn_behind _ b _ _ Hrest). }
  assert (Hopen := @skip_body_open_line l1 v1 Ht
                     ltac:(rewrite Hrest1; reflexivity)).
  set (v2 := {| current_comment_type := Some SINGLE_LINE;
                multi_line_comment_depth := multi_line_comment_depth v1;
                comment_start := Z.of_nat (pos l1) |}) in *.
  assert (Hrest2 : rest (advance l1 2) = body ++ [])
    by exact (skipn_behind _ (lit "//") _ _ Hrest1).
  pose proof (@skip_over_line_body body Hbody l (advance l1 2) v2 _
                (reach_pass Hreach Hopen) eq_refl Hrest2) as Hr3.
  rewrite advance_advance in Hr3.
  set (l3 := advance l1 (2 + length body)) in *.
  assert (Hlen : length (source l) = pos l3).
  { unfold rest in Hrest. apply (f_equal (@length _)) in Hrest.
    rewrite length_skipn in Hrest. unfold l3. cbn [advance pos].
    rewrite Hpos. simpl in Hrest. rewrite ?length_app in Hrest.
    simpl in Hrest.
    assert (pos l <= length (source l)).
    { destruct (Nat.le_gt_cases (pos l) (length (source l))); [assumption|].
      lia. }
    lia. }
  assert (Hm : has_more l3 0 = false).
  { apply has_more_ge. unfold l3 at 1. cbn [advance source].
    rewrite Hsrc. lia. }
  assert (Hsk : skip_whitespace l = Ok (None, l3)).
  { rewrite (@skip_whitespace_Break l (l3, v2) Hr3 Hm).
    unfold skip_finish. cbn [v2 current_comment_type comment_type_eqb].
    now rewrite andb_false_r. }
  exists l3. repeat split.
  - unfold next_token. rewrite Hsk. cbn [bind].
    assert (Hle : length (source l3) <= pos l3)
      by (unfold l3 at 1; cbn [advance source]; rewrite Hsrc; lia).
    apply Nat.leb_le in Hle. now rewrite Hle.
  - unfold l3. cbn [advance source]. exact Hsrc.
  - now rewrite Hlen.
  - destruct (skip_reach_lines Hreach) as (Hl & _).
    unfold l3. cbn [advance line]. rewrite Hl. f_equal. f_equal.
    unfold slice, rest in *.
    rewrite Hpos, Hrest, Nat.add_comm, Nat.add_sub, firstn_app, Nat.sub_diag.
    rewrite firstn_all. simpl. now rewrite app_nil_r.
Qed.

Lemma line_comment_at_end_witness :
  exists l1,
    next_token python_ascii (for_string (chr "010" :: lit "// /* x")) =
    Ok (None, l1) /\ pos l1 = 8 /\ line l1 = 1.
Proof.
  destruct (@line_comment_at_end python_ascii
              (for_string (chr "010" :: lit "// /* x"))
              [chr "010"] (lit " /* x"))
    as (l1 & H & _ & Hp & Hl).
  - apply blank_char; [reflexivity | constructor].
  - repeat constructor.
  - reflexivity.
  - exists l1. auto.
Defined.

(** ** Sources the recognizers are not called on *)

Lemma slice_to_end (s : str) i : slice s i (length s) = skipn i s.
Proof.
  unfold slice. apply firstn_all2. rewrite length_skipn. lia.
Qed.

(** X11: when the calls of [next_token] up to the sentinel return only
    operators, separators and errors for single unrecognized characters,
    from a scanner whose line bookkeeping is in step, nothing is lost: the
    characters the skipper moved over and the texts the spans select make
    up the source from the cursor on, in order, and every span selects the
    text of its token. *)
Theorem symbols_are_covered (U : UnicodeData) (n : nat) :
  forall (l : Lexer) (ts : list Token),
    in_step l ->
    tokens U n l = Ok (ts, true) ->
    forallb is_direct ts = true ->
    coverage U n l = Ok (rest l) /\
    Forall (span_correct (source l)) ts.
Proof.
  induction n as [|n IH]; intros l ts Hstep Hts Hdir; [discriminate|].
  cbn [tokens coverage] in *.
  destruct (next_token_ok U l) as (r & l' & Hnt & Hsrc & Hpos & Hr).
  rewrite Hnt in *. cbn [bind] in *. destruct r as [t|].
  - destruct (tokens U n l') as [[ts' fl]| |] eqn:Hts'; cbn [bind] in Hts;
      try discriminate.
    injection Hts as <- ->. cbn [forallb] in Hdir.
    apply andb_true_iff in Hdir as [Hd Hdir].
    destruct (@direct_token_step U l t l' Hstep Hnt Hd)
      as (l1 & Hsk & Hsrc1 & _ & Hp1 & Hp2 & Htext & Hspan & Hstep').
    destruct (IH l' ts' Hstep' Hts' Hdir) as [Hcov Hall].
    rewrite Hsk, Hcov. cbn [bind snd]. split.
    + f_equal. rewrite Hspan, Htext. unfold rest. rewrite Hsrc.
      rewrite <- (slice_to_end (source l) (pos l')).
      rewrite <- !slice_app by lia. apply slice_to_end.
    + constructor; [exact Hspan | now rewrite <- Hsrc].
  - injection Hts as <-. destruct Hr as [Hlen Hsk].
    rewrite Hsk. cbn [bind snd]. split; [|constructor].
    f_equal. unfold rest.
    destruct (skip_whitespace_reach _ Hsk) as (v & Hreach & _).
    pose proof (skip_reach_in_step Hreach Hstep) as ((_ & Hle) & _).
    cbn [fst] in Hle. rewrite Hsrc in Hle.
    replace (pos l') with (length (source l)) by lia.
    apply slice_to_end.
Qed.

Lemma symbols_are_covered_witness :
  coverage python_ascii 4
    (for_string (lit "{ /* ab */ +=" ++ [chr "010"] ++ lit "; // x")) =
  Ok (lit "{ /* ab */ +=" ++ [chr "010"] ++ lit "; // x").
Proof.
  exact (proj1 (@symbols_are_covered python_ascii 4
           (for_string (lit "{ /* ab */ +=" ++ [chr "010"] ++ lit "; // x"))
           [Separator BRACE_OPEN (mk_span 0 0 0 1);
            Operator ASSIGN_PLUS (mk_span 0 11 0 13);
            Separator SEMICOLON (mk_span 1 0 1 1)]
           ltac:(repeat split; simpl; lia) eq_refl eq_refl)).
Defined.

(** ** The characters of a number *)

Lemma below_128 (f g : char -> bool) :
  forallb (fun n => Bool.eqb (f (N.of_nat n)) (g (N.of_nat n))) (seq 0 128)
  = true ->
  forall c, (c < 128)%N -> f c = g c.
Proof.
  intros H c Hc. rewrite forallb_forall in H.
  specialize (H (N.to_nat c)). rewrite N2Nat.id in H.
  apply eqb_prop, H, in_seq. lia.
Qed.

(** X12: on the ASCII block [is_hex] accepts the ten digits and the
    letters a to f in either case, and nothing else; [is_numeric] accepts
    the ten digits; [is_identifier_char] accepts the underscore, the
    letters and the digits. *)
Theorem ascii_character_classes (U : UnicodeData) (c : char) :
  ascii_compatible U -> (c < 128)%N ->
  is_hex U c = char_in c (lit "0123456789abcdefABCDEF") /\
  is_numeric U c = char_in c (lit "0123456789") /\
  is_identifier_char U c =
    char_in c (lit "_abcdefghijklmnopqrstuvwxyzABCDEFGHIJKLMNOPQRSTUVWXYZ0123456789").
Proof.
  intros HU Hc. destruct (HU c Hc) as (Ha & Hd & Hl).
  unfold is_hex, is_numeric, is_identifier_char. rewrite Ha, Hd, Hl.
  clear Ha Hd Hl.
  repeat split; revert c Hc; apply below_128; vm_compute; reflexivity.
Qed.

Lemma ascii_character_classes_witness :
  is_hex python_ascii (chr "F") = true /\
  is_hex python_ascii (chr "g") = false.
Proof.
  split.
  - exact (proj1 (@ascii_character_classes python_ascii (chr "F")
                    python_ascii_compatible eq_refl)).
  - exact (proj1 (@ascii_character_classes python_ascii (chr "g")
                    python_ascii_compatible eq_refl)).
Defined.
